(** * local_proxy: a shallow embedding of [proxy.go]

    The program is a localhost HTTP gateway with three handlers ([/open],
    [/test], [/style]).  The handlers are embedded as computations in a small
    state monad over the response writer and an event log; the operating
    system (file system, pattern expansion, process start) is a parameter of
    the development, the record [World].  The startup of [main], up to the
    call that serves, is embedded as a function of the host and of the
    process (flags, working directory).

    The functions of Go's [strings], [path/filepath], [fmt] and [net/http]
    packages the program calls are embedded next to it.  [path/filepath] is
    embedded for the targets whose path separator is the slash and that have
    no volume names. *)

From Stdlib Require Import Ascii String.
From stdpp Require Import base option list strings gmap.

(** ** Go values *)

(** A Go [error]: [None] is [nil], [Some msg] an error whose [Error()] is
    [msg]. *)
Definition error : Type := option string.

(** A Go result pair [(v, err)], of which exactly one side is meaningful. *)
Inductive result (A : Type) : Type :=
| Ok (v : A)
| Err (msg : string).
Arguments Ok {A} v.
Arguments Err {A} msg.

Definition newline : string := String (ascii_of_nat 10) EmptyString.

(** ** Package [strings] *)

Module strings.

Definition HasPrefix (s pre : string) : bool := String.prefix pre s.

(** [len(s) >= len(suffix) && s[len(s)-len(suffix):] == suffix] *)
Definition HasSuffix (s suffix : string) : bool :=
  (String.length suffix <=? String.length s)
  && bool_decide
       (substring (String.length s - String.length suffix)
                  (String.length suffix) s = suffix).

Fixpoint Join (elems : list string) (sep : string) : string :=
  match elems with
  | [] => EmptyString
  | [e] => e
  | e :: rest => e +:+ sep +:+ Join rest sep
  end.

End strings.

(** ** Package [path/filepath] (slash-separated targets) *)

Module filepath.

Definition Separator : ascii := "/"%char.

Definition IsPathSeparator (c : ascii) : bool := bool_decide (c = Separator).

Definition isDot (c : ascii) : bool := bool_decide (c = "."%char).

(** [r == n || os.IsPathSeparator(path[r])], on the unread input. *)
Definition endOrSeparator (rest : list ascii) : bool :=
  match rest with
  | [] => true
  | c :: _ => IsPathSeparator c
  end.

(** The inner loop of the [..] case:
    [for out.w > dotdot && !os.IsPathSeparator(out.index(out.w)) { out.w-- }]
    It returns the final write index. *)
Fixpoint backtrack (buf : list ascii) (dotdot w : nat) : nat :=
  match w with
  | O => O
  | S w' =>
      if (dotdot <? w) && negb (IsPathSeparator (nth w buf Separator))
      then backtrack buf dotdot w'
      else w
  end.

(** The copy loop of a real path element:
    [for ; r < n && !os.IsPathSeparator(path[r]); r++ { out.append(path[r]) }]
    It returns the bytes copied and the unread input. *)
Fixpoint copyElement (rest : list ascii) : list ascii * list ascii :=
  match rest with
  | [] => ([], [])
  | c :: rest' =>
      if IsPathSeparator c then ([], rest)
      else let '(el, r) := copyElement rest' in (c :: el, r)
  end.

(** The main loop of [Clean]: [rest] is [path[r:]], [out] the bytes written
    so far ([out.w] is its length).  Every turn reads at least one byte, so
    [length rest] turns are enough; [fuel] counts them. *)
Fixpoint cleanLoop (fuel : nat) (rooted : bool) (rest out : list ascii)
         (dotdot : nat) : list ascii :=
  match fuel with
  | O => out
  | S fuel' =>
      match rest with
      | [] => out
      | c :: r1 =>
          if IsPathSeparator c then
            (* empty path element *)
            cleanLoop fuel' rooted r1 out dotdot
          else if isDot c && endOrSeparator r1 then
            (* . element *)
            cleanLoop fuel' rooted r1 out dotdot
          else if isDot c && isDot (hd Separator r1)
                  && endOrSeparator (tl r1) then
            (* .. element: remove to last separator *)
            let r2 := tl r1 in
            if (dotdot <? length out) then
              (* can backtrack *)
              let w := backtrack out dotdot (length out - 1) in
              cleanLoop fuel' rooted r2 (take w out) dotdot
            else if negb rooted then
              (* cannot backtrack, but not rooted, so append .. element *)
              let out1 :=
                if (0 <? length out)
                then (out ++ [Separator]) else out in
              let out2 := (out1 ++ ["."%char; "."%char]) in
              cleanLoop fuel' rooted r2 out2 (length out2)
            else cleanLoop fuel' rooted r2 out dotdot
          else
            (* real path element: add slash if needed, copy element *)
            let out1 :=
              if (rooted && negb (length out =? 1))
                 || (negb rooted && negb (length out =? 0))
              then (out ++ [Separator]) else out in
            let '(el, r') := copyElement rest in
            cleanLoop fuel' rooted r' (out1 ++ el) dotdot
      end
  end.

Definition Clean (path : string) : string :=
  match list_ascii_of_string path with
  | [] => "."
  | c :: p' =>
      let rooted := IsPathSeparator c in
      let out :=
        if rooted
        then cleanLoop (length p') true p' [Separator] 1
        else cleanLoop (length (c :: p')) false (c :: p') [] 0 in
      (* Turn empty string into "." *)
      string_of_list_ascii (match out with [] => ["."%char] | _ => out end)
  end.

(** [IsAbs] reports whether the path is absolute:
    [strings.HasPrefix(path, "/")]. *)
Definition IsAbs (path : string) : bool := strings.HasPrefix path "/".

(** [Join]: the first non-empty element and all that follow are joined with
    the separator and cleaned; with no non-empty element the result is
    empty. *)
Fixpoint Join (elem : list string) : string :=
  match elem with
  | [] => EmptyString
  | e :: rest =>
      if bool_decide (e = EmptyString) then Join rest
      else Clean (strings.Join elem "/")
  end.

(** Strip trailing slashes:
    [for len(path) > 0 && os.IsPathSeparator(path[len(path)-1])]
    on the reversed bytes. *)
Fixpoint stripSlashes (rev_path : list ascii) : list ascii :=
  match rev_path with
  | [] => []
  | c :: rest => if IsPathSeparator c then stripSlashes rest else rev_path
  end.

(** The last element: the bytes after the last separator, read off the
    reversed path up to its first separator. *)
Fixpoint lastElement (rev_path : list ascii) : list ascii :=
  match rev_path with
  | [] => []
  | c :: rest => if IsPathSeparator c then [] else c :: lastElement rest
  end.

Definition Base (path : string) : string :=
  match list_ascii_of_string path with
  | [] => "."
  | p =>
      match rev (lastElement (stripSlashes (rev p))) with
      | [] => "/"   (* it had only slashes *)
      | b => string_of_list_ascii b
      end
  end.

End filepath.

(** ** Package [fmt] *)

Module fmt.

(** [Sprintf] for the verbs the program uses, [%s] and [%v], on operands
    that are strings (an error operand is passed as its [Error()] text).
    [%%] prints a percent sign; a verb with no operand left prints Go's
    [%!s(MISSING)]; operands left over are reported the way Go does. *)
Fixpoint format (f : list ascii) (args : list string) : string :=
  match f with
  | [] =>
      match args with
      | [] => EmptyString
      | _ =>
          "%!(EXTRA "
            +:+ strings.Join (map (fun a => "string=" +:+ a) args) ", " +:+ ")"
      end
  | c :: f1 =>
      if bool_decide (c = "%"%char) then
        match f1 with
        | [] => "%!(NOVERB)"
        | v :: f2 =>
            if bool_decide (v = "%"%char) then String v (format f2 args)
            else if bool_decide (v = "s"%char) || bool_decide (v = "v"%char)
            then match args with
                 | [] => "%!" +:+ String v "(MISSING)" +:+ format f2 []
                 | a :: args' => a +:+ format f2 args'
                 end
            else String c (String v (format f2 args))
        end
      else String c (format f1 args)
  end.

Definition Sprintf (f : string) (args : list string) : string :=
  format (list_ascii_of_string f) args.

End fmt.

(** ** Package [net/url]: query values *)

Module url.

(** [Values.Get]: the first value of the key, or the empty string. *)
Definition Get (v : gmap string (list string)) (key : string) : string :=
  match v !! key with
  | Some (x :: _) => x
  | _ => EmptyString
  end.

End url.

(** ** The operating system *)

Record FileInfo : Type := { IsDir : bool }.

(** [exec.Cmd]: [exec.Command(name, arg...)] sets [Path] to [name] and [Args]
    to [name] followed by the arguments. *)
Record Cmd : Type := { Path : string; Args : list string }.

Definition Command (name : string) (arg : list string) : Cmd :=
  {| Path := name; Args := name :: arg |}.

(** What the program asks of its host: the value of [runtime.GOOS], the
    answer of [os.Stat] to a path, the answer of [filepath.Glob] to a pattern
    (its only error is [ErrBadPattern], for a malformed pattern) and the
    outcome of [Start] on an [exec.Cmd]. *)
Record World : Type := {
  GOOS : string;
  Stat : string -> result FileInfo;
  Glob : string -> result (list string);
  Start : Cmd -> error
}.

(** What a handler does besides writing its response. *)
Inductive Event : Type :=
| EvPrint (text : string)          (* fmt.Printf to standard output *)
| EvStat (path : string)           (* os.Stat *)
| EvGlob (pattern : string)        (* filepath.Glob *)
| EvStart (cmd : Cmd).             (* cmd.Start *)

Definition isPrint (e : Event) : bool :=
  match e with EvPrint _ => true | _ => false end.

(** ** Package [net/http]: the response writer *)

Module http.

Definition StatusOK : nat := 200.
Definition StatusNoContent : nat := 204.
Definition StatusBadRequest : nat := 400.
Definition StatusNotFound : nat := 404.
Definition StatusInternalServerError : nat := 500.

(** The state of a [ResponseWriter]: the header map the handler edits, and
    what has been sent: [WriteHeader] freezes status and header, [Write]
    appends to the body. *)
Record ResponseWriter : Type := {
  header : gmap string (list string);
  wroteHeader : bool;
  status : nat;
  sentHeader : gmap string (list string);
  body : string
}.

Definition newWriter : ResponseWriter :=
  {| header := ∅; wroteHeader := false; status := 0;
     sentHeader := ∅; body := EmptyString |}.

(** What the client receives. *)
Record Response : Type := {
  StatusCode : nat;
  Header : gmap string (list string);
  Body : string
}.

(** [bodyAllowedForStatus]: no body with 1xx, 204 and 304. *)
Definition bodyAllowedForStatus (code : nat) : bool :=
  negb ((100 <=? code) && (code <=? 199))
  && negb (code =? 204) && negb (code =? 304).

(** Key canonicalisation is the identity on the keys the program uses. *)
Definition setHeader (key value : string) (w : ResponseWriter)
  : ResponseWriter :=
  {| header := <[key := [value]]> (header w);
     wroteHeader := wroteHeader w; status := status w;
     sentHeader := sentHeader w; body := body w |}.

Definition addHeader (key value : string) (w : ResponseWriter)
  : ResponseWriter :=
  {| header := <[key := (default [] (header w !! key) ++ [value])]>
                 (header w);
     wroteHeader := wroteHeader w; status := status w;
     sentHeader := sentHeader w; body := body w |}.

Definition delHeader (key : string) (w : ResponseWriter) : ResponseWriter :=
  {| header := delete key (header w);
     wroteHeader := wroteHeader w; status := status w;
     sentHeader := sentHeader w; body := body w |}.

(** A second [WriteHeader] is superfluous and ignored. *)
Definition writeHeader (code : nat) (w : ResponseWriter) : ResponseWriter :=
  if wroteHeader w then w
  else {| header := header w; wroteHeader := true; status := code;
          sentHeader := header w; body := body w |}.

(** [Write] sends the header with status 200 if none was sent yet. *)
Definition write (data : string) (w : ResponseWriter) : ResponseWriter :=
  let w1 := writeHeader StatusOK w in
  if bodyAllowedForStatus (status w1)
  then {| header := header w1; wroteHeader := wroteHeader w1;
          status := status w1; sentHeader := sentHeader w1;
          body := body w1 +:+ data |}
  else w1.

(** When the handler returns, a response without header gets status 200. *)
Definition finish (w : ResponseWriter) : Response :=
  let w1 := writeHeader StatusOK w in
  {| StatusCode := status w1; Header := sentHeader w1; Body := body w1 |}.

End http.

(** ** The handler monad

    A handler runs over the response writer and appends to the log of its
    calls to the host.  A Go [return] in the middle of a handler is the end of
    the branch that holds it. *)

Record HState : Type := {
  writer : http.ResponseWriter;
  events : list Event
}.

Definition M (A : Type) : Type := HState -> A * HState.

Definition ret {A : Type} (a : A) : M A := fun s => (a, s).

Definition bind {A B : Type} (m : M A) (k : A -> M B) : M B :=
  fun s => let '(a, s') := m s in k a s'.

Notation "x <- m ;; k" := (bind m (fun x => k))
  (at level 100, m at next level, right associativity).
Notation "m ;; k" := (bind m (fun _ => k))
  (at level 100, right associativity).

Definition onWriter (f : http.ResponseWriter -> http.ResponseWriter)
  : M unit :=
  fun s => (tt, {| writer := f (writer s); events := events s |}).

Definition emit (e : Event) : M unit :=
  fun s => (tt, {| writer := writer s; events := (events s ++ [e]) |}).

Definition WriteHeader (code : nat) : M unit := onWriter (http.writeHeader code).
Definition Write (data : string) : M unit := onWriter (http.write data).
Definition HeaderAdd (key value : string) : M unit :=
  onWriter (http.addHeader key value).

(** [fmt.Fprintf(w, format, args...)] *)
Definition Fprintf (f : string) (args : list string) : M unit :=
  Write (fmt.Sprintf f args).

(** [fmt.Printf(format, args...)], to standard output. *)
Definition Printf (f : string) (args : list string) : M unit :=
  emit (EvPrint (fmt.Sprintf f args)).

(** [http.Error(w, error, code)]: plain-text headers, the status, and the
    message on a line of its own. *)
Definition Error (msg : string) (code : nat) : M unit :=
  onWriter (http.delHeader "Content-Length") ;;
  onWriter (http.setHeader "Content-Type" "text/plain; charset=utf-8") ;;
  onWriter (http.setHeader "X-Content-Type-Options" "nosniff") ;;
  WriteHeader code ;;
  Write (msg +:+ newline).

(** A handler is run on a fresh writer and an empty log. *)
Definition serve (h : M unit) : http.Response * list Event :=
  let '(_, s) := h {| writer := http.newWriter; events := [] |} in
  (http.finish (writer s), events s).

(** ** The program *)

(** The package variables, as [main] leaves them before it serves. *)
Record Config : Type := {
  basePath : string;
  port : string;
  token : string
}.

(** The loop of [HasFileWithPrefixExceptExt]: the first file without the
    suffix ends it with [true]. *)
Fixpoint rangeFiles (files : list string) (excludeExt : string) : bool :=
  match files with
  | [] => false
  | f :: rest =>
      if negb (strings.HasSuffix f excludeExt) then true
      else rangeFiles rest excludeExt
  end.

Definition svgTpl : string :=
  "<svg viewBox='0 0 16 16' xmlns='http://www.w3.org/2000/svg' font-family='monospace'><rect width='16' height='16' fill='%s' /><text x='1' y='12'>%s</text></svg>".

Definition svgGreen : string :=
  "<svg viewBox='0 0 16 16' xmlns='http://www.w3.org/2000/svg'><rect width='16' height='16' fill='green' /></svg>".

Definition cssTpl : string := ".%s { display: initial !important; }".

Section Program.

Context (world : World) (cfg : Config).

Definition os_Stat (name : string) : M (result FileInfo) :=
  emit (EvStat name) ;; ret (Stat world name).

Definition filepath_Glob (pattern : string) : M (result (list string)) :=
  emit (EvGlob pattern) ;; ret (Glob world pattern).

Definition cmd_Start (cmd : Cmd) : M error :=
  emit (EvStart cmd) ;; ret (Start world cmd).

Definition HasFileWithPrefixExceptExt (dir pre excludeExt : string)
  : M (bool * error) :=
  let pattern := filepath.Join [dir; pre] in
  r <- filepath_Glob pattern ;;
  match r with
  | Err e => ret (false, Some e)
  | Ok files => ret (rangeFiles files excludeExt, None)
  end.

Definition openPath (path : string) : M error :=
  let cmd :=
    if bool_decide (GOOS world = "windows") then Command "explorer" [path]
    else if bool_decide (GOOS world = "darwin") then Command "open" [path]
    else Command "xdg-open" [path] in
  cmd_Start cmd.

(** [token != "" && token != givenToken] *)
Definition tokenMismatch (givenToken : string) : bool :=
  negb (bool_decide (token cfg = EmptyString))
  && negb (bool_decide (token cfg = givenToken)).

(** The handler of [/open]. *)
Definition handleOpen (query : gmap string (list string)) : M unit :=
  let name := url.Get query "name" in
  let givenToken := url.Get query "token" in
  if bool_decide (name = EmptyString) then
    Error "Missing ?name= parameter" http.StatusBadRequest
  else if tokenMismatch givenToken then
    Error "Invalid Token" http.StatusBadRequest
  else
    let cleanName := filepath.Clean name in
    if filepath.IsAbs name then
      Printf ("Base path: %s" +:+ newline) [cleanName] ;;
      Printf ("Base path: %s" +:+ newline) [name] ;;
      Error "Invalid folder/file name" http.StatusBadRequest
    else
      let fullPath := filepath.Join [basePath cfg; cleanName] in
      r <- os_Stat fullPath ;;
      match r with
      | Err _ => Error "Not Found" http.StatusNotFound
      | Ok info =>
          if negb (IsDir info) then Error "Not Found" http.StatusNotFound
          else
            err <- openPath fullPath ;;
            match err with
            | Some e =>
                Error (fmt.Sprintf "Failed to open: %v" [e])
                      http.StatusInternalServerError
            | None => WriteHeader http.StatusNoContent
            end
      end.

(** The handler of [/test]. *)
Definition handleTest (query : gmap string (list string)) : M unit :=
  let name := url.Get query "name" in
  let glob := url.Get query "glob" in
  let givenToken := url.Get query "token" in
  if bool_decide (name = EmptyString) then
    Error "Missing ?name= parameter" http.StatusBadRequest
  else if tokenMismatch givenToken then
    Error "Invalid Token" http.StatusBadRequest
  else
    let cleanName := filepath.Clean name in
    if filepath.IsAbs name then
      Printf ("Base path: %s" +:+ newline) [cleanName] ;;
      Printf ("Base path: %s" +:+ newline) [name] ;;
      Error "Invalid folder/file name" http.StatusBadRequest
    else
      let fullPath := filepath.Join [basePath cfg; cleanName] in
      r <- os_Stat fullPath ;;
      match r with
      | Err _ =>
          HeaderAdd "Content-Type" "image/svg+xml" ;;
          WriteHeader http.StatusOK ;;
          Fprintf svgTpl ["red"; glob]
      | Ok _ =>
          if negb (bool_decide (glob = EmptyString)) then
            let globBase := filepath.Base glob in
            res <- HasFileWithPrefixExceptExt fullPath globBase ".txt" ;;
            match res with
            | (_, Some _) => Error "Bad Glob" http.StatusBadRequest
            | (true, None) =>
                HeaderAdd "Content-Type" "image/svg+xml" ;;
                WriteHeader http.StatusOK ;;
                Fprintf svgTpl ["green"; glob]
            | (false, None) =>
                HeaderAdd "Content-Type" "image/svg+xml" ;;
                WriteHeader http.StatusOK ;;
                Fprintf svgTpl ["orange"; glob]
            end
          else
            HeaderAdd "Content-Type" "image/svg+xml" ;;
            WriteHeader http.StatusOK ;;
            Write svgGreen
      end.

(** The handler of [/style]. *)
Definition handleStyle (query : gmap string (list string)) : M unit :=
  let class := url.Get query "class" in
  let givenToken := url.Get query "token" in
  if bool_decide (class = EmptyString) then
    Error "Missing ?class= parameter" http.StatusBadRequest
  else if tokenMismatch givenToken then
    Error "Invalid Token" http.StatusBadRequest
  else
    HeaderAdd "Content-Type" "text/css" ;;
    WriteHeader http.StatusOK ;;
    Fprintf cssTpl [class].

End Program.

(** ** Expected responses and paths *)

Definition plainTextHeader : gmap string (list string) :=
  {[ "Content-Type" := ["text/plain; charset=utf-8"];
     "X-Content-Type-Options" := ["nosniff"] ]}.

(** The response of [http.Error]. *)
Definition errorResponse (msg : string) (code : nat) : http.Response :=
  {| http.StatusCode := code; http.Header := plainTextHeader;
     http.Body := msg +:+ newline |}.

(** A 200 response with one [Content-Type] value. *)
Definition typedResponse (contentType content : string) : http.Response :=
  {| http.StatusCode := 200;
     http.Header := {[ "Content-Type" := [contentType] ]};
     http.Body := content |}.

Definition noContent : http.Response :=
  {| http.StatusCode := 204; http.Header := ∅; http.Body := EmptyString |}.

(** The labelled badge: [svgTpl] with its two operands in place. *)
Definition badge (fill label : string) : string :=
  "<svg viewBox='0 0 16 16' xmlns='http://www.w3.org/2000/svg' font-family='monospace'><rect width='16' height='16' fill='"
    +:+ fill +:+ "' /><text x='1' y='12'>" +:+ label +:+ "</text></svg>".

(** The path a request names: the cleaned name joined onto the base. *)
Definition resolved (cfg : Config) (query : gmap string (list string))
  : string :=
  filepath.Join [basePath cfg; filepath.Clean (url.Get query "name")].

(** The pattern [/test] expands: the base name of [glob] under the
    resolved path. *)
Definition globPattern (cfg : Config) (query : gmap string (list string))
  : string :=
  filepath.Join [resolved cfg query; filepath.Base (url.Get query "glob")].

(** The command [openPath] starts on each host. *)
Definition revealCommand (world : World) (path : string) : Cmd :=
  if bool_decide (GOOS world = "windows") then Command "explorer" [path]
  else if bool_decide (GOOS world = "darwin") then Command "open" [path]
  else Command "xdg-open" [path].

(** The two lines the path guard prints when it rejects a name. *)
Definition guardPrints (name : string) : list Event :=
  [EvPrint ("Base path: " +:+ filepath.Clean name +:+ newline);
   EvPrint ("Base path: " +:+ name +:+ newline)].

(** Lexical containment, the check the guard does not make: the path is the
    base or continues it after a separator. *)
Definition within (base path : string) : bool :=
  bool_decide (path = base)
  || strings.HasPrefix path
       (if strings.HasSuffix base "/" then base else base +:+ "/").

(** ** A host and requests to run the handlers on *)

Definition directory : FileInfo := {| IsDir := true |}.
Definition regularFile : FileInfo := {| IsDir := false |}.

Definition demoStat (path : string) : result FileInfo :=
  if bool_decide (path = "/home/u/Projects/site-a") then Ok directory
  else if bool_decide (path = "/home/u/Projects/notes.md") then Ok regularFile
  else if bool_decide (path = "/home/etc") then Ok directory
  else Err "no such file or directory".

Definition demoGlob (pattern : string) : result (list string) :=
  if bool_decide (pattern = "/home/u/Projects/site-a/*")
  then Ok ["/home/u/Projects/site-a/index.html";
           "/home/u/Projects/site-a/readme.txt"]
  else if bool_decide (pattern = "/home/u/Projects/site-a/r*")
  then Ok ["/home/u/Projects/site-a/readme.txt"]
  else if bool_decide (pattern = "/home/u/Projects/site-a/[")
  then Err "syntax error in pattern"
  else Ok [].

Definition demoWorld : World :=
  {| GOOS := "linux"; Stat := demoStat; Glob := demoGlob;
     Start := fun _ => None |}.

(** The same host without a program to reveal a directory. *)
Definition hostWithoutOpener : World :=
  {| GOOS := "linux"; Stat := demoStat; Glob := demoGlob;
     Start := fun _ => Some "executable file not found in $PATH" |}.

Definition demoCfg : Config :=
  {| basePath := "/home/u/Projects"; port := "4455"; token := "secret" |}.

Definition openCfg : Config :=
  {| basePath := "/home/u/Projects"; port := "4455"; token := EmptyString |}.

(** ** The checks of [/open], in the order of the specification *)

Inductive OpenCheck : Type :=
| CheckName | CheckToken | CheckGuard | CheckDirectory.

Definition openChecks : list OpenCheck :=
  [CheckName; CheckToken; CheckGuard; CheckDirectory].

Definition checkFails (world : World) (cfg : Config)
           (query : gmap string (list string)) (c : OpenCheck) : bool :=
  match c with
  | CheckName => bool_decide (url.Get query "name" = EmptyString)
  | CheckToken => tokenMismatch cfg (url.Get query "token")
  | CheckGuard => filepath.IsAbs (url.Get query "name")
  | CheckDirectory =>
      match Stat world (resolved cfg query) with
      | Err _ => true
      | Ok info => negb (IsDir info)
      end
  end.

Definition checkResponse (c : OpenCheck) : http.Response :=
  match c with
  | CheckName => errorResponse "Missing ?name= parameter" 400
  | CheckToken => errorResponse "Invalid Token" 400
  | CheckGuard => errorResponse "Invalid folder/file name" 400
  | CheckDirectory => errorResponse "Not Found" 404
  end.

(** The calls to the host a check makes: only the last one makes any. *)
Definition checkCalls (cfg : Config) (query : gmap string (list string))
           (c : OpenCheck) : list Event :=
  match c with
  | CheckDirectory => [EvStat (resolved cfg query)]
  | _ => []
  end.

(** The calls to the host in a log: everything but the prints. *)
Definition hostCalls (log : list Event) : list Event :=
  filter (fun e => isPrint e = false) log.

(** ** The loop of [Clean], state by state

    What the proofs about [Clean] are stated on: the loop with its final
    state, the steps it takes on whole path elements, and the states it can
    reach. *)

Section CleanLoopModel.

Import filepath.

(** [cleanLoop] with the final [dotdot] returned next to the buffer. *)
Fixpoint cleanRun (fuel : nat) (rooted : bool) (rest out : list ascii)
         (dotdot : nat) : list ascii * nat :=
  match fuel with
  | O => (out, dotdot)
  | S fuel' =>
      match rest with
      | [] => (out, dotdot)
      | c :: r1 =>
          if IsPathSeparator c then cleanRun fuel' rooted r1 out dotdot
          else if isDot c && endOrSeparator r1 then
            cleanRun fuel' rooted r1 out dotdot
          else if isDot c && isDot (hd Separator r1)
                  && endOrSeparator (tl r1) then
            let r2 := tl r1 in
            if (dotdot <? length out) then
              let w := backtrack out dotdot (length out - 1) in
              cleanRun fuel' rooted r2 (take w out) dotdot
            else if negb rooted then
              let out1 :=
                if (0 <? length out) then (out ++ [Separator]) else out in
              let out2 := (out1 ++ ["."%char; "."%char]) in
              cleanRun fuel' rooted r2 out2 (length out2)
            else cleanRun fuel' rooted r2 out dotdot
          else
            let out1 :=
              if (rooted && negb (length out =? 1))
                 || (negb rooted && negb (length out =? 0))
              then (out ++ [Separator]) else out in
            let '(el, r') := copyElement rest in
            cleanRun fuel' rooted r' (out1 ++ el) dotdot
      end
  end.

(** The loop on all of its input. *)
Definition run (rooted : bool) (rest out : list ascii) (dotdot : nat)
  : list ascii * nat :=
  cleanRun (length rest) rooted rest out dotdot.

(** A path element that [Clean] keeps: not empty, without separator, and
    neither [.] nor [..]. *)
Definition isElem (s : list ascii) : Prop :=
  s <> [] /\ Forall (fun c => IsPathSeparator c = false) s
  /\ s <> ["."%char] /\ s <> ["."%char; "."%char].

(** What the loop does to the buffer for a real path element. *)
Definition push (rooted : bool) (out s : list ascii) : list ascii :=
  (if (rooted && negb (length out =? 1))
      || (negb rooted && negb (length out =? 0))
   then out ++ [Separator] else out) ++ s.

(** What it does for a [..] element it cannot remove. *)
Definition pushDots (out : list ascii) : list ascii :=
  (if 0 <? length out then out ++ [Separator] else out)
    ++ ["."%char; "."%char].

(** The states of the loop: the buffer and [dotdot]. *)
Inductive Shape (rooted : bool) : list ascii -> nat -> Prop :=
| shape_root : rooted = true -> Shape rooted [Separator] 1
| shape_empty : rooted = false -> Shape rooted [] 0
| shape_dots out :
    rooted = false -> Shape rooted out (length out) ->
    Shape rooted (pushDots out) (length (pushDots out))
| shape_push out dotdot s :
    Shape rooted out dotdot -> isElem s ->
    Shape rooted (push rooted out s) dotdot.

(** The input that rebuilds a buffer: the buffer itself, without the
    leading separator [Clean] reads before the loop. *)
Definition unrooted (rooted : bool) (out : list ascii) : list ascii :=
  if rooted then tl out else out.

(** The state [Clean] starts the loop in. *)
Definition initial (rooted : bool) : list ascii * nat :=
  if rooted then ([Separator], 1) else ([], 0).

(** The cleaned path begins with a [..] element. *)
Definition leadingDotDot (path : string) : bool :=
  bool_decide (path = "..") || strings.HasPrefix path "../".

End CleanLoopModel.

(** ** Startup *)

(** [filepath.Abs]: an absolute path is cleaned; any other is joined onto
    the working directory, and the error of [os.Getwd] is returned. *)
Definition Abs (getwd : result string) (path : string) : result string :=
  if filepath.IsAbs path then Ok (filepath.Clean path)
  else match getwd with
       | Err e => Err e
       | Ok wd => Ok (filepath.Join [wd; path])
       end.

(** [fmt.Println] of string operands: a space between operands, a newline
    at the end. *)
Definition Println (operands : list string) : string :=
  strings.Join operands " " +:+ newline.

(** The process [main] runs in: the flags as [flag.Parse] found them on the
    command line ([None] leaves the default), the answer of [os.Getwd], and
    the verdict of [os.IsNotExist] on the error of a stat. *)
Record Process : Type := {
  flagBase : option string;
  flagPort : option string;
  flagToken : option string;
  Getwd : result string;
  IsNotExist : string -> bool
}.

(** How [main] goes on after its checks: [os.Exit] with a code, or
    [http.ListenAndServe] on an address with the package variables set. *)
Inductive Outcome : Type :=
| Exit (code : nat)
| ListenAndServe (addr : string) (cfg : Config).

(** [main] up to the call of [http.ListenAndServe]: the lines printed and the
    outcome. *)
Definition main (world : World) (proc : Process) : list string * Outcome :=
  let base := default "." (flagBase proc) in
  let port := default "4455" (flagPort proc) in
  let token := default EmptyString (flagToken proc) in
  match Abs (Getwd proc) base with
  | Err e => ([Println ["Error resolving base path:"; e]], Exit 1)
  | Ok abs =>
      match Stat world abs with
      | Err e =>
          if IsNotExist proc e
          then ([Println ["Error: base path does not exist:"; abs]], Exit 1)
          else ([Println ["Error checking base path:"; e]], Exit 1)
      | Ok info =>
          if negb (IsDir info)
          then ([Println ["Error: base path is not a directory:"; abs]],
                Exit 1)
          else
            ([fmt.Sprintf ("Base path: %s" +:+ newline) [abs];
              fmt.Sprintf ("Listening on http://localhost:%s" +:+ newline)
                          [port];
              fmt.Sprintf ("Example:" +:+ newline
                             +:+ " http://localhost:%s/open?name=.&token=%s"
                             +:+ newline) [port; token]],
             ListenAndServe ("localhost:" +:+ port)
               {| basePath := abs; port := port; token := token |})
      end
  end.

(** [main] after [http.ListenAndServe] returned: the line printed and the
    exit code. *)
Definition serverStopped (err : error) : list string * nat :=
  match err with
  | Some e => ([Println ["Server error:"; e]], 1)
  | None => ([], 0)
  end.

(** A process for the host above: started in [/home/u/Projects] with
    [-base site-a -token secret]. *)
Definition demoProcess : Process :=
  {| flagBase := Some "site-a"; flagPort := None; flagToken := Some "secret";
     Getwd := Ok "/home/u/Projects";
     IsNotExist := fun e => bool_decide (e = "no such file or directory") |}.

(** ** The ways through the handlers *)

(** The checks of [/open] and [/test] that do not ask the host: the name is
    there, the token is accepted, the name is not absolute. *)
Definition accepted (cfg : Config) (query : gmap string (list string))
  : bool :=
  negb (bool_decide (url.Get query "name" = EmptyString))
  && negb (tokenMismatch cfg (url.Get query "token"))
  && negb (filepath.IsAbs (url.Get query "name")).

(** The ways through [/open]. *)
Inductive OpenCase (world : World) (cfg : Config)
          (query : gmap string (list string)) : Prop :=
| OpenMissing :
    url.Get query "name" = EmptyString ->
    serve (handleOpen world cfg query)
    = (errorResponse "Missing ?name= parameter" 400, []) ->
    OpenCase world cfg query
| OpenToken :
    url.Get query "name" <> EmptyString ->
    tokenMismatch cfg (url.Get query "token") = true ->
    serve (handleOpen world cfg query)
    = (errorResponse "Invalid Token" 400, []) ->
    OpenCase world cfg query
| OpenAbsolute :
    url.Get query "name" <> EmptyString ->
    tokenMismatch cfg (url.Get query "token") = false ->
    filepath.IsAbs (url.Get query "name") = true ->
    serve (handleOpen world cfg query)
    = (errorResponse "Invalid folder/file name" 400,
       guardPrints (url.Get query "name")) ->
    OpenCase world cfg query
| OpenStatError e :
    accepted cfg query = true ->
    Stat world (resolved cfg query) = Err e ->
    serve (handleOpen world cfg query)
    = (errorResponse "Not Found" 404, [EvStat (resolved cfg query)]) ->
    OpenCase world cfg query
| OpenNotDirectory info :
    accepted cfg query = true ->
    Stat world (resolved cfg query) = Ok info -> IsDir info = false ->
    serve (handleOpen world cfg query)
    = (errorResponse "Not Found" 404, [EvStat (resolved cfg query)]) ->
    OpenCase world cfg query
| OpenStartFailed info e :
    accepted cfg query = true ->
    Stat world (resolved cfg query) = Ok info -> IsDir info = true ->
    Start world (revealCommand world (resolved cfg query)) = Some e ->
    serve (handleOpen world cfg query)
    = (errorResponse ("Failed to open: " +:+ e) 500,
       [EvStat (resolved cfg query);
        EvStart (revealCommand world (resolved cfg query))]) ->
    OpenCase world cfg query
| OpenStarted info :
    accepted cfg query = true ->
    Stat world (resolved cfg query) = Ok info -> IsDir info = true ->
    Start world (revealCommand world (resolved cfg query)) = None ->
    serve (handleOpen world cfg query)
    = (noContent,
       [EvStat (resolved cfg query);
        EvStart (revealCommand world (resolved cfg query))]) ->
    OpenCase world cfg query.

(** The ways through [/test]. *)
Inductive TestCase (world : World) (cfg : Config)
          (query : gmap string (list string)) : Prop :=
| TestMissing :
    url.Get query "name" = EmptyString ->
    serve (handleTest world cfg query)
    = (errorResponse "Missing ?name= parameter" 400, []) ->
    TestCase world cfg query
| TestToken :
    url.Get query "name" <> EmptyString ->
    tokenMismatch cfg (url.Get query "token") = true ->
    serve (handleTest world cfg query)
    = (errorResponse "Invalid Token" 400, []) ->
    TestCase world cfg query
| TestAbsolute :
    url.Get query "name" <> EmptyString ->
    tokenMismatch cfg (url.Get query "token") = false ->
    filepath.IsAbs (url.Get query "name") = true ->
    serve (handleTest world cfg query)
    = (errorResponse "Invalid folder/file name" 400,
       guardPrints (url.Get query "name")) ->
    TestCase world cfg query
| TestStatError e :
    accepted cfg query = true ->
    Stat world (resolved cfg query) = Err e ->
    serve (handleTest world cfg query)
    = (typedResponse "image/svg+xml" (badge "red" (url.Get query "glob")),
       [EvStat (resolved cfg query)]) ->
    TestCase world cfg query
| TestNoGlob info :
    accepted cfg query = true ->
    Stat world (resolved cfg query) = Ok info ->
    url.Get query "glob" = EmptyString ->
    serve (handleTest world cfg query)
    = (typedResponse "image/svg+xml" svgGreen,
       [EvStat (resolved cfg query)]) ->
    TestCase world cfg query
| TestBadGlob info e :
    accepted cfg query = true ->
    Stat world (resolved cfg query) = Ok info ->
    url.Get query "glob" <> EmptyString ->
    Glob world (globPattern cfg query) = Err e ->
    serve (handleTest world cfg query)
    = (errorResponse "Bad Glob" 400,
       [EvStat (resolved cfg query); EvGlob (globPattern cfg query)]) ->
    TestCase world cfg query
| TestBadge info files :
    accepted cfg query = true ->
    Stat world (resolved cfg query) = Ok info ->
    url.Get query "glob" <> EmptyString ->
    Glob world (globPattern cfg query) = Ok files ->
    serve (handleTest world cfg query)
    = (typedResponse "image/svg+xml"
         (badge (if rangeFiles files ".txt" then "green" else "orange")
                (url.Get query "glob")),
       [EvStat (resolved cfg query); EvGlob (globPattern cfg query)]) ->
    TestCase world cfg query.

(** The stat of a path succeeds and reports a directory. *)
Definition statDirectory (world : World) (path : string) : bool :=
  match Stat world path with
  | Ok info => IsDir info
  | Err _ => false
  end.

(** The path an event hands to the host. *)
Definition eventPath (e : Event) : option string :=
  match e with
  | EvPrint _ => None
  | EvStat path => Some path
  | EvGlob pattern => Some pattern
  | EvStart cmd => last (Args cmd)
  end.

(** * Properties *)

(** ** The path functions on the examples of their documentation *)

Example Clean_examples :
  map filepath.Clean
      ["abc//def"; "abc/./def"; "abc/def/.."; "/../abc"; "../../etc";
       "a/b/../../../c"; "/a/b/../../../c/"; "."; "//"; "abc/.."; "a/../../b";
       "abc/def/../../.."; "/abc/def/../../.."; "abc/./../def"; "../..";
       "abc/def/ghi/../jkl"; "/.."]
  = ["abc/def"; "abc/def"; "abc"; "/abc"; "../../etc";
     "../c"; "/c"; "."; "/"; "."; "../b";
     ".."; "/"; "def"; "../..";
     "abc/def/jkl"; "/"].
Proof. vm_compute. reflexivity. Qed.

Example Join_examples :
  map filepath.Join
      [["a"; "b"; "c"]; ["a"; "b/c"]; ["a/b"; "c"]; ["a/b"; "/c"];
       ["a/b"; "../../../xyz"]; [EmptyString; "a"]; ["a"; EmptyString];
       [EmptyString; EmptyString]; ["/home/u/Projects"; "."]]
  = ["a/b/c"; "a/b/c"; "a/b/c"; "a/b/c";
     "../xyz"; "a"; "a"; EmptyString; "/home/u/Projects"].
Proof. vm_compute. reflexivity. Qed.

Example Base_examples :
  map filepath.Base
      ["/foo/bar/baz.js"; "/foo/bar/baz"; "/foo/bar/baz/"; "dev.txt";
       "../todo.txt"; ".."; "."; "/"; EmptyString; "x/*.md"]
  = ["baz.js"; "baz"; "baz"; "dev.txt";
     "todo.txt"; ".."; "."; "/"; "."; "*.md"].
Proof. vm_compute. reflexivity. Qed.

Example HasSuffix_examples :
  map (fun s => strings.HasSuffix s ".txt")
      ["readme.txt"; ".txt"; "txt"; "readme.txt.bak"; EmptyString;
       "dir.txt/file"]
  = [true; true; false; false; false; false].
Proof. vm_compute. reflexivity. Qed.

Example Sprintf_examples :
  fmt.Sprintf cssTpl ["foo"] = ".foo { display: initial !important; }"
  /\ fmt.Sprintf "%s-%s" ["100%"; "%s"] = "100%-%s"
  /\ fmt.Sprintf "Failed to open: %v" ["exec: no command"]
     = "Failed to open: exec: no command".
Proof. vm_compute. repeat split. Qed.

(** ** The branches of the handlers

    One lemma per way through a handler: the response and the log. *)

Ltac run :=
  unfold serve, HasFileWithPrefixExceptExt, openPath, os_Stat, filepath_Glob,
    cmd_Start, Printf, bind, emit, ret;
  cbn [events writer].

Ltac enter handler :=
  unfold handler, resolved, revealCommand in *;
  repeat match goal with
    | H : ?x = EmptyString |- _ => rewrite (bool_decide_true _ H)
    | H : ?x <> EmptyString |- _ => rewrite (bool_decide_false _ H)
    | H : tokenMismatch _ _ = _ |- _ => rewrite H
    | H : filepath.IsAbs _ = _ |- _ => rewrite H
    end;
  run;
  repeat match goal with
    | H : Stat _ _ = _ |- _ => rewrite H
    | H : IsDir _ = _ |- _ => rewrite H
    | H : Glob _ _ = _ |- _ => rewrite H
    | H : Start _ _ = _ |- _ => rewrite H
    | H : rangeFiles _ _ = _ |- _ => rewrite H
    end;
  try reflexivity.

Lemma append_empty_r (s : string) : s +:+ EmptyString = s.
Proof.
  induction s as [|c s IH]; [reflexivity|].
  change (String c (s +:+ EmptyString) = String c s). now rewrite IH.
Qed.

Lemma Sprintf_failed (e : string) :
  fmt.Sprintf "Failed to open: %v" [e] = "Failed to open: " +:+ e.
Proof.
  transitivity ("Failed to open: " +:+ e +:+ EmptyString); [reflexivity|].
  now rewrite append_empty_r.
Qed.

Section Branches.

Context (world : World) (cfg : Config) (query : gmap string (list string)).

Lemma open_missing_name :
  url.Get query "name" = EmptyString ->
  serve (handleOpen world cfg query)
  = (errorResponse "Missing ?name= parameter" 400, []).
Proof. intros Hn. enter handleOpen. Qed.

Lemma open_invalid_token :
  url.Get query "name" <> EmptyString ->
  tokenMismatch cfg (url.Get query "token") = true ->
  serve (handleOpen world cfg query)
  = (errorResponse "Invalid Token" 400, []).
Proof. intros Hn Ht. enter handleOpen. Qed.

Lemma open_absolute_name :
  url.Get query "name" <> EmptyString ->
  tokenMismatch cfg (url.Get query "token") = false ->
  filepath.IsAbs (url.Get query "name") = true ->
  serve (handleOpen world cfg query)
  = (errorResponse "Invalid folder/file name" 400,
     guardPrints (url.Get query "name")).
Proof. intros Hn Ht Ha. enter handleOpen. Qed.

Lemma open_stat_error e :
  url.Get query "name" <> EmptyString ->
  tokenMismatch cfg (url.Get query "token") = false ->
  filepath.IsAbs (url.Get query "name") = false ->
  Stat world (resolved cfg query) = Err e ->
  serve (handleOpen world cfg query)
  = (errorResponse "Not Found" 404, [EvStat (resolved cfg query)]).
Proof. intros Hn Ht Ha Hs. enter handleOpen. Qed.

Lemma open_not_a_directory info :
  url.Get query "name" <> EmptyString ->
  tokenMismatch cfg (url.Get query "token") = false ->
  filepath.IsAbs (url.Get query "name") = false ->
  Stat world (resolved cfg query) = Ok info -> IsDir info = false ->
  serve (handleOpen world cfg query)
  = (errorResponse "Not Found" 404, [EvStat (resolved cfg query)]).
Proof. intros Hn Ht Ha Hs Hd. enter handleOpen. Qed.

Lemma open_start_failed info e :
  url.Get query "name" <> EmptyString ->
  tokenMismatch cfg (url.Get query "token") = false ->
  filepath.IsAbs (url.Get query "name") = false ->
  Stat world (resolved cfg query) = Ok info -> IsDir info = true ->
  Start world (revealCommand world (resolved cfg query)) = Some e ->
  serve (handleOpen world cfg query)
  = (errorResponse ("Failed to open: " +:+ e) 500,
     [EvStat (resolved cfg query);
      EvStart (revealCommand world (resolved cfg query))]).
Proof.
  intros Hn Ht Ha Hs Hd Hl. enter handleOpen.
  rewrite Sprintf_failed. reflexivity.
Qed.

Lemma open_started info :
  url.Get query "name" <> EmptyString ->
  tokenMismatch cfg (url.Get query "token") = false ->
  filepath.IsAbs (url.Get query "name") = false ->
  Stat world (resolved cfg query) = Ok info -> IsDir info = true ->
  Start world (revealCommand world (resolved cfg query)) = None ->
  serve (handleOpen world cfg query)
  = (noContent,
     [EvStat (resolved cfg query);
      EvStart (revealCommand world (resolved cfg query))]).
Proof. intros Hn Ht Ha Hs Hd Hl. enter handleOpen. Qed.

Lemma test_missing_name :
  url.Get query "name" = EmptyString ->
  serve (handleTest world cfg query)
  = (errorResponse "Missing ?name= parameter" 400, []).
Proof. intros Hn. enter handleTest. Qed.

Lemma test_invalid_token :
  url.Get query "name" <> EmptyString ->
  tokenMismatch cfg (url.Get query "token") = true ->
  serve (handleTest world cfg query)
  = (errorResponse "Invalid Token" 400, []).
Proof. intros Hn Ht. enter handleTest. Qed.

Lemma test_absolute_name :
  url.Get query "name" <> EmptyString ->
  tokenMismatch cfg (url.Get query "token") = false ->
  filepath.IsAbs (url.Get query "name") = true ->
  serve (handleTest world cfg query)
  = (errorResponse "Invalid folder/file name" 400,
     guardPrints (url.Get query "name")).
Proof. intros Hn Ht Ha. enter handleTest. Qed.

Lemma test_stat_error e :
  url.Get query "name" <> EmptyString ->
  tokenMismatch cfg (url.Get query "token") = false ->
  filepath.IsAbs (url.Get query "name") = false ->
  Stat world (resolved cfg query) = Err e ->
  serve (handleTest world cfg query)
  = (typedResponse "image/svg+xml" (badge "red" (url.Get query "glob")),
     [EvStat (resolved cfg query)]).
Proof. intros Hn Ht Ha Hs. enter handleTest. Qed.

Lemma test_no_glob info :
  url.Get query "name" <> EmptyString ->
  tokenMismatch cfg (url.Get query "token") = false ->
  filepath.IsAbs (url.Get query "name") = false ->
  Stat world (resolved cfg query) = Ok info ->
  url.Get query "glob" = EmptyString ->
  serve (handleTest world cfg query)
  = (typedResponse "image/svg+xml" svgGreen, [EvStat (resolved cfg query)]).
Proof. intros Hn Ht Ha Hs Hg. enter handleTest. Qed.

Lemma test_bad_glob info e :
  url.Get query "name" <> EmptyString ->
  tokenMismatch cfg (url.Get query "token") = false ->
  filepath.IsAbs (url.Get query "name") = false ->
  Stat world (resolved cfg query) = Ok info ->
  url.Get query "glob" <> EmptyString ->
  Glob world (globPattern cfg query) = Err e ->
  serve (handleTest world cfg query)
  = (errorResponse "Bad Glob" 400,
     [EvStat (resolved cfg query); EvGlob (globPattern cfg query)]).
Proof. intros Hn Ht Ha Hs Hg Hp. unfold globPattern in *. enter handleTest. Qed.

Lemma test_glob_result info files :
  url.Get query "name" <> EmptyString ->
  tokenMismatch cfg (url.Get query "token") = false ->
  filepath.IsAbs (url.Get query "name") = false ->
  Stat world (resolved cfg query) = Ok info ->
  url.Get query "glob" <> EmptyString ->
  Glob world (globPattern cfg query) = Ok files ->
  serve (handleTest world cfg query)
  = (typedResponse "image/svg+xml"
       (badge (if rangeFiles files ".txt" then "green" else "orange")
              (url.Get query "glob")),
     [EvStat (resolved cfg query); EvGlob (globPattern cfg query)]).
Proof.
  intros Hn Ht Ha Hs Hg Hp. unfold globPattern in *.
  destruct (rangeFiles files ".txt") eqn:Hr; enter handleTest.
Qed.

Lemma style_missing_class :
  url.Get query "class" = EmptyString ->
  serve (handleStyle cfg query)
  = (errorResponse "Missing ?class= parameter" 400, []).
Proof. intros Hn. enter handleStyle. Qed.

Lemma style_invalid_token :
  url.Get query "class" <> EmptyString ->
  tokenMismatch cfg (url.Get query "token") = true ->
  serve (handleStyle cfg query) = (errorResponse "Invalid Token" 400, []).
Proof. intros Hn Ht. enter handleStyle. Qed.

Lemma style_rule :
  url.Get query "class" <> EmptyString ->
  tokenMismatch cfg (url.Get query "token") = false ->
  serve (handleStyle cfg query)
  = (typedResponse "text/css"
       ("." +:+ url.Get query "class" +:+ " { display: initial !important; }"),
     []).
Proof. intros Hn Ht. enter handleStyle. Qed.

End Branches.

(** ** Facts about the path and string functions *)

(** *** [Clean] runs to the end of its input and keeps a leading slash *)

Lemma backtrack_ge buf dotdot w :
  dotdot <= w -> dotdot <= filepath.backtrack buf dotdot w.
Proof.
  induction w as [|w IH]; intros Hle; simpl; [exact Hle|].
  destruct (dotdot <? S w) eqn:Hlt; simpl; [|exact Hle].
  destruct (negb _); [|exact Hle].
  apply IH. apply Nat.ltb_lt in Hlt. lia.
Qed.

Lemma copyElement_length rest :
  length (filepath.copyElement rest).2 <= length rest.
Proof.
  induction rest as [|c rest IH]; simpl; [lia|].
  destruct (filepath.IsPathSeparator c); simpl; [lia|].
  destruct (filepath.copyElement rest) as [el r]. simpl in *. lia.
Qed.

(** Any fuel that covers the unread input gives the same result: the loop of
    [Clean] is never cut short by the fuel [Clean] gives it. *)
Lemma cleanLoop_fuel f1 : forall f2 rooted rest out dotdot,
  length rest <= f1 -> length rest <= f2 ->
  filepath.cleanLoop f1 rooted rest out dotdot
  = filepath.cleanLoop f2 rooted rest out dotdot.
Proof.
  induction f1 as [|f1 IH]; intros f2 rooted rest out dotdot H1 H2.
  - destruct rest; [|simpl in H1; lia]. now destruct f2.
  - destruct f2 as [|f2]; [destruct rest; [reflexivity | simpl in H2; lia]|].
    destruct rest as [|c r1]; [reflexivity|]. simpl in H1, H2.
    cbn [filepath.cleanLoop].
    destruct (filepath.IsPathSeparator c) eqn:Hc; [apply IH; lia|].
    destruct (filepath.isDot c && filepath.endOrSeparator r1);
      [apply IH; lia|].
    assert (Htl : length (tail r1) <= length r1) by (destruct r1; simpl; lia).
    destruct (filepath.isDot c && filepath.isDot (hd filepath.Separator r1)
              && filepath.endOrSeparator (tail r1)).
    + destruct (dotdot <? length out); [apply IH; lia|].
      destruct (negb rooted); apply IH; lia.
    + cbn [filepath.copyElement]. rewrite Hc.
      pose proof (copyElement_length r1) as Hlen.
      destruct (filepath.copyElement r1) as [el r']. simpl in Hlen.
      apply IH; lia.
Qed.

Lemma cleanLoop_rooted fuel : forall rest out,
  exists o, filepath.cleanLoop fuel true rest (filepath.Separator :: out) 1
            = filepath.Separator :: o.
Proof.
  induction fuel as [|fuel IH]; intros rest out; [simpl; eauto|].
  destruct rest as [|c r1]; [simpl; eauto|].
  cbn [filepath.cleanLoop].
  destruct (filepath.IsPathSeparator c) eqn:Hc; [apply IH|].
  destruct (filepath.isDot c && filepath.endOrSeparator r1); [apply IH|].
  destruct (filepath.isDot c && filepath.isDot (hd filepath.Separator r1)
            && filepath.endOrSeparator (tail r1)).
  - destruct (1 <? length (filepath.Separator :: out)) eqn:Hlen.
    + apply Nat.ltb_lt in Hlen.
      pose proof (backtrack_ge (filepath.Separator :: out) 1
                    (length (filepath.Separator :: out) - 1)) as Hw.
      destruct (filepath.backtrack (filepath.Separator :: out) 1
                  (length (filepath.Separator :: out) - 1)) as [|w];
        [lia|].
      cbn [take]. apply IH.
    + cbn [negb]. apply IH.
  - cbn [filepath.copyElement]. rewrite Hc.
    destruct (filepath.copyElement r1) as [el r'].
    destruct (_ || _); cbn [app]; apply IH.
Qed.

Lemma IsAbs_inv path :
  filepath.IsAbs path = true ->
  exists rest, path = String filepath.Separator rest.
Proof.
  destruct path as [|c rest]; [discriminate|].
  unfold filepath.IsAbs, strings.HasPrefix. cbn [String.prefix].
  destruct (ascii_dec "/"%char c) as [<-|]; [eauto | discriminate].
Qed.

Lemma IsAbs_rooted rest :
  filepath.IsAbs (String filepath.Separator rest) = true.
Proof.
  unfold filepath.IsAbs, strings.HasPrefix. cbn [String.prefix].
  destruct (ascii_dec "/"%char filepath.Separator) as [_|Hne];
    [now destruct rest | now destruct Hne].
Qed.

Lemma Clean_IsAbs path :
  filepath.IsAbs path = true -> filepath.IsAbs (filepath.Clean path) = true.
Proof.
  intros [rest ->]%IsAbs_inv. unfold filepath.Clean.
  cbn [list_ascii_of_string].
  change (filepath.IsPathSeparator filepath.Separator) with true. cbv iota.
  destruct (cleanLoop_rooted (length (list_ascii_of_string rest))
              (list_ascii_of_string rest) []) as [o ->].
  apply IsAbs_rooted.
Qed.

(** A path joined onto an absolute base is absolute. *)
Lemma Join_IsAbs base name :
  filepath.IsAbs base = true ->
  filepath.IsAbs (filepath.Join [base; name]) = true.
Proof.
  intros Ha. destruct (IsAbs_inv _ Ha) as [rest ->].
  cbn [filepath.Join]. rewrite bool_decide_false by discriminate.
  apply Clean_IsAbs, IsAbs_rooted.
Qed.

(** *** Suffixes *)

Lemma append_cons (c : ascii) (a b : string) :
  String c a +:+ b = String c (a +:+ b).
Proof. reflexivity. Qed.

Lemma length_append (a b : string) :
  String.length (a +:+ b) = String.length a + String.length b.
Proof.
  induction a as [|c a IH]; [reflexivity|].
  rewrite append_cons. cbn [String.length]. now rewrite IH.
Qed.

Lemma append_assoc (a b c : string) : (a +:+ b) +:+ c = a +:+ (b +:+ c).
Proof.
  induction a as [|x a IH]; [reflexivity|].
  rewrite !append_cons. now rewrite IH.
Qed.

Lemma substring_whole (s : string) : substring 0 (String.length s) s = s.
Proof.
  induction s as [|c s IH]; [reflexivity|].
  cbn [substring String.length]. now rewrite IH.
Qed.

Lemma substring_skip (p s : string) (m : nat) :
  substring (String.length p) m (p +:+ s) = substring 0 m s.
Proof. induction p as [|c p IH]; [reflexivity|]. exact IH. Qed.

Lemma substring_split (n m : nat) : forall s,
  n + m = String.length s -> substring 0 n s +:+ substring n m s = s.
Proof.
  induction n as [|n IH]; intros s H.
  - simpl in H. subst m. rewrite substring_whole. now destruct s.
  - destruct s as [|c s]; [discriminate H|]. simpl in H.
    cbn [substring]. rewrite append_cons, IH by lia. reflexivity.
Qed.

(** [HasSuffix] holds exactly of the strings that end with the suffix. *)
Lemma HasSuffix_spec (s suffix : string) :
  strings.HasSuffix s suffix = true <-> exists p, s = p +:+ suffix.
Proof.
  unfold strings.HasSuffix.
  rewrite andb_true_iff, Nat.leb_le, bool_decide_eq_true. split.
  - intros [Hlen Hsub].
    exists (substring 0 (String.length s - String.length suffix) s).
    rewrite <- Hsub at 2. symmetry. apply substring_split. lia.
  - intros [p ->]. rewrite length_append. split; [lia|].
    replace (String.length p + String.length suffix - String.length suffix)
      with (String.length p) by lia.
    rewrite substring_skip. apply substring_whole.
Qed.

Lemma separator_not_in_txt (dir n : string) : dir +:+ "/" +:+ n <> "txt".
Proof.
  intros H.
  repeat (destruct dir as [|? dir];
          [discriminate H|]; injection H as ? H; subst).
  destruct dir; discriminate H.
Qed.

(** A file under a directory ends in [.txt] exactly when its name does: the
    test [HasFileWithPrefixExceptExt] makes on a path is a test on the file
    name. *)
Lemma HasSuffix_txt_under (dir n : string) :
  strings.HasSuffix (dir +:+ "/" +:+ n) ".txt" = strings.HasSuffix n ".txt".
Proof.
  apply eq_true_iff_eq. rewrite !HasSuffix_spec. split.
  - intros [p H]. revert p H. induction dir as [|d dir IH]; intros p H.
    + destruct p as [|c p]; [discriminate H|]. injection H as _ H. eauto.
    + destruct p as [|c p].
      * exfalso. injection H as _ H. exact (separator_not_in_txt dir n H).
      * injection H as _ H. eauto.
  - intros [p ->]. exists (dir +:+ "/" +:+ p). now rewrite !append_assoc.
Qed.

(** *** Tokens and files *)

Lemma IsAbs_nonempty (name : string) :
  filepath.IsAbs name = true -> name <> EmptyString.
Proof. intros H ->. discriminate H. Qed.

Lemma tokenMismatch_empty (cfg : Config) (given : string) :
  token cfg = EmptyString -> tokenMismatch cfg given = false.
Proof. intros H. unfold tokenMismatch. now rewrite (bool_decide_true _ H). Qed.

Lemma tokenMismatch_correct (cfg : Config) (given : string) :
  given = token cfg -> tokenMismatch cfg given = false.
Proof.
  intros ->. unfold tokenMismatch.
  rewrite (bool_decide_true (token cfg = token cfg)) by reflexivity.
  apply andb_false_r.
Qed.

Lemma tokenMismatch_true (cfg : Config) (given : string) :
  tokenMismatch cfg given = true <->
  token cfg <> EmptyString /\ token cfg <> given.
Proof.
  unfold tokenMismatch.
  rewrite andb_true_iff, !negb_true_iff, !bool_decide_eq_false. tauto.
Qed.

(** The loop of [HasFileWithPrefixExceptExt] finds a file exactly when one of
    the files lacks the suffix. *)
Lemma rangeFiles_true (files : list string) (ext : string) :
  rangeFiles files ext = true <->
  exists f, f ∈ files /\ strings.HasSuffix f ext = false.
Proof.
  induction files as [|f files IH]; simpl.
  - split; [discriminate|]. intros (f & Hin & _). inversion Hin.
  - destruct (strings.HasSuffix f ext) eqn:Hf; simpl.
    + rewrite IH. split.
      * intros (g & Hin & Hg). exists g. split; [now right | exact Hg].
      * intros (g & Hin & Hg). apply elem_of_cons in Hin as [-> | Hin].
        -- congruence.
        -- exists g. tauto.
    + split; [|reflexivity]. intros _. exists f. split; [now left | exact Hf].
Qed.

Lemma rangeFiles_false (files : list string) (ext : string) :
  rangeFiles files ext = false <->
  forall f, f ∈ files -> strings.HasSuffix f ext = true.
Proof.
  rewrite <- not_true_iff_false, rangeFiles_true. split.
  - intros Hno f Hin. destruct (strings.HasSuffix f ext) eqn:Hf; [reflexivity|].
    exfalso. apply Hno. exists f. tauto.
  - intros Hall (f & Hin & Hf). rewrite (Hall f Hin) in Hf. discriminate.
Qed.

(** On the files of one directory the loop looks for a name without the
    suffix [.txt]. *)
Lemma rangeFiles_under (dir : string) (names : list string) :
  rangeFiles (map (fun n => dir +:+ "/" +:+ n) names) ".txt"
  = existsb (fun n => negb (strings.HasSuffix n ".txt")) names.
Proof.
  induction names as [|n names IH]; [reflexivity|].
  cbn [map rangeFiles existsb]. rewrite HasSuffix_txt_under, IH.
  now destruct (strings.HasSuffix n ".txt").
Qed.

(** After the name, token and guard checks both handlers stat the resolved
    path first. *)
Lemma open_stats_resolved world cfg query :
  url.Get query "name" <> EmptyString ->
  tokenMismatch cfg (url.Get query "token") = false ->
  filepath.IsAbs (url.Get query "name") = false ->
  exists rest,
    snd (serve (handleOpen world cfg query)) = EvStat (resolved cfg query) :: rest.
Proof.
  intros Hn Ht Ha.
  destruct (Stat world (resolved cfg query)) as [info|e] eqn:Hs.
  - destruct (IsDir info) eqn:Hd.
    + destruct (Start world (revealCommand world (resolved cfg query)))
        as [e|] eqn:Hl.
      * rewrite (open_start_failed _ _ _ info e) by assumption. eauto.
      * rewrite (open_started _ _ _ info) by assumption. eauto.
    + rewrite (open_not_a_directory _ _ _ info) by assumption. eauto.
  - rewrite (open_stat_error _ _ _ e) by assumption. eauto.
Qed.

Lemma test_stats_resolved world cfg query :
  url.Get query "name" <> EmptyString ->
  tokenMismatch cfg (url.Get query "token") = false ->
  filepath.IsAbs (url.Get query "name") = false ->
  exists rest,
    snd (serve (handleTest world cfg query)) = EvStat (resolved cfg query) :: rest.
Proof.
  intros Hn Ht Ha.
  destruct (Stat world (resolved cfg query)) as [info|e] eqn:Hs.
  - destruct (decide (url.Get query "glob" = EmptyString)) as [Hg|Hg].
    + rewrite (test_no_glob _ _ _ info) by assumption. eauto.
    + destruct (Glob world (globPattern cfg query)) as [files|e] eqn:Hp.
      * rewrite (test_glob_result _ _ _ info files) by assumption. eauto.
      * rewrite (test_bad_glob _ _ _ info e) by assumption. eauto.
  - rewrite (test_stat_error _ _ _ e) by assumption. eauto.
Qed.

(** Past the guard, [/open] answers 404, 500 or 204, and [/test] answers 200
    or 400 "Bad Glob". *)
Lemma open_past_guard world cfg query :
  url.Get query "name" <> EmptyString ->
  tokenMismatch cfg (url.Get query "token") = false ->
  filepath.IsAbs (url.Get query "name") = false ->
  http.StatusCode (fst (serve (handleOpen world cfg query))) <> 400.
Proof.
  intros Hn Ht Ha.
  destruct (Stat world (resolved cfg query)) as [info|e] eqn:Hs.
  - destruct (IsDir info) eqn:Hd.
    + destruct (Start world (revealCommand world (resolved cfg query)))
        as [e|] eqn:Hl.
      * now rewrite (open_start_failed _ _ _ info e).
      * now rewrite (open_started _ _ _ info).
    + now rewrite (open_not_a_directory _ _ _ info).
  - now rewrite (open_stat_error _ _ _ e).
Qed.

Lemma test_past_guard world cfg query :
  url.Get query "name" <> EmptyString ->
  tokenMismatch cfg (url.Get query "token") = false ->
  filepath.IsAbs (url.Get query "name") = false ->
  http.StatusCode (fst (serve (handleTest world cfg query))) = 200
  \/ fst (serve (handleTest world cfg query)) = errorResponse "Bad Glob" 400.
Proof.
  intros Hn Ht Ha.
  destruct (Stat world (resolved cfg query)) as [info|e] eqn:Hs.
  - destruct (decide (url.Get query "glob" = EmptyString)) as [Hg|Hg].
    + left. now rewrite (test_no_glob _ _ _ info).
    + destruct (Glob world (globPattern cfg query)) as [files|e] eqn:Hp.
      * left. now rewrite (test_glob_result _ _ _ info files).
      * right. now rewrite (test_bad_glob _ _ _ info e).
  - left. now rewrite (test_stat_error _ _ _ e).
Qed.

(** Two concrete responses differ in status or in body. *)
Ltac differ H :=
  first [ apply (f_equal http.StatusCode) in H; discriminate H
        | apply (f_equal http.Body) in H; vm_compute in H; discriminate H ].

(** ** The claims *)

(** C5. For every name that is a syntactically absolute path, [/open] and
    [/test] both respond with status 400, whatever the supplied token and
    whatever the file system holds; neither handler calls the host. *)
Theorem absolute_name_status_400 world cfg query :
  filepath.IsAbs (url.Get query "name") = true ->
  http.StatusCode (fst (serve (handleOpen world cfg query))) = 400
  /\ http.StatusCode (fst (serve (handleTest world cfg query))) = 400
  /\ hostCalls (snd (serve (handleOpen world cfg query))) = []
  /\ hostCalls (snd (serve (handleTest world cfg query))) = [].
Proof.
  intros Ha. pose proof (IsAbs_nonempty _ Ha) as Hn.
  destruct (tokenMismatch cfg (url.Get query "token")) eqn:Ht.
  - rewrite open_invalid_token, test_invalid_token by assumption. auto.
  - rewrite open_absolute_name, test_absolute_name by assumption. auto.
Qed.

Lemma absolute_name_status_400_witness :
  filepath.IsAbs (url.Get {[ "name" := ["/etc"] ]} "name") = true
  /\ http.StatusCode
       (fst (serve (handleOpen demoWorld demoCfg {[ "name" := ["/etc"] ]})))
     = 400.
Proof.
  split; [vm_compute; reflexivity|].
  apply (absolute_name_status_400 demoWorld demoCfg {[ "name" := ["/etc"] ]}).
  vm_compute. reflexivity.
Defined.

(** C3. [/open] applies its checks in the order missing name, token, path
    guard, existence and directory: the first check that fails determines
    the response, and no later check runs (the only call to the host a check
    makes is the stat of the last one, and no command is started). *)
Theorem open_first_failing_check world cfg query before c after :
  openChecks = before ++ c :: after ->
  Forall (fun c' => checkFails world cfg query c' = false) before ->
  checkFails world cfg query c = true ->
  fst (serve (handleOpen world cfg query)) = checkResponse c
  /\ hostCalls (snd (serve (handleOpen world cfg query)))
     = checkCalls cfg query c.
Proof.
  intros Horder Hbefore Hfail.
  assert (Hcases :
    (before = [] /\ c = CheckName)
    \/ (before = [CheckName] /\ c = CheckToken)
    \/ (before = [CheckName; CheckToken] /\ c = CheckGuard)
    \/ (before = [CheckName; CheckToken; CheckGuard] /\ c = CheckDirectory)).
  { unfold openChecks in Horder.
    destruct before as [|b1 [|b2 [|b3 [|b4 before]]]];
      injection Horder as <-; intros; subst; auto 6.
    destruct before; discriminate. }
  destruct Hcases as [[-> ->] | [[-> ->] | [[-> ->] | [-> ->]]]];
    repeat match goal with
      | H : Forall _ (_ :: _) |- _ => apply Forall_cons in H as [? H]
      end;
    cbn [checkFails] in *;
    repeat match goal with
      | H : bool_decide _ = true |- _ => apply bool_decide_eq_true in H
      | H : bool_decide _ = false |- _ => apply bool_decide_eq_false in H
      end.
  - rewrite open_missing_name by assumption. auto.
  - rewrite open_invalid_token by assumption. auto.
  - rewrite open_absolute_name by assumption. auto.
  - destruct (Stat world (resolved cfg query)) as [info|e] eqn:Hs.
    + apply negb_true_iff in Hfail.
      rewrite (open_not_a_directory _ _ _ info) by assumption. auto.
    + rewrite (open_stat_error _ _ _ e) by assumption. auto.
Qed.

(** When no check fails, [/open] goes on to start the command. *)
Lemma open_checks_pass world cfg query :
  Forall (fun c => checkFails world cfg query c = false) openChecks ->
  snd (serve (handleOpen world cfg query))
  = [EvStat (resolved cfg query);
     EvStart (revealCommand world (resolved cfg query))].
Proof.
  unfold openChecks. rewrite !Forall_cons. cbn [checkFails].
  intros (Hn%bool_decide_eq_false & Ht & Ha & Hd & _).
  destruct (Stat world (resolved cfg query)) as [info|e] eqn:Hs;
    [|discriminate Hd].
  apply negb_false_iff in Hd.
  destruct (Start world (revealCommand world (resolved cfg query)))
    as [e|] eqn:Hl.
  - now rewrite (open_start_failed _ _ _ info e).
  - now rewrite (open_started _ _ _ info).
Qed.

Lemma open_first_failing_check_witness :
  checkFails demoWorld demoCfg
    {[ "name" := ["notes.md"]; "token" := ["secret"] ]} CheckDirectory = true
  /\ fst (serve (handleOpen demoWorld demoCfg
                   {[ "name" := ["notes.md"]; "token" := ["secret"] ]}))
     = errorResponse "Not Found" 404.
Proof.
  split; [vm_compute; reflexivity|].
  apply (open_first_failing_check demoWorld demoCfg
           {[ "name" := ["notes.md"]; "token" := ["secret"] ]}
           [CheckName; CheckToken; CheckGuard] CheckDirectory []).
  - reflexivity.
  - repeat (constructor; [vm_compute; reflexivity|]). constructor.
  - vm_compute. reflexivity.
Defined.

(** C1. The path guard of [/open] and [/test] answers 400 "Invalid
    folder/file name" exactly when it is reached (the token check passed)
    and the name as supplied is absolute.  It makes no containment check
    after the join: the name [../../etc] is not absolute, its cleaned form
    begins with [..] segments, both handlers accept it and go on to stat the
    joined path, and that path is lexically outside the base. *)
Theorem path_guard_rejects_exactly_absolute_names :
  (forall world cfg query,
     (fst (serve (handleOpen world cfg query))
        = errorResponse "Invalid folder/file name" 400
      <-> tokenMismatch cfg (url.Get query "token") = false
          /\ filepath.IsAbs (url.Get query "name") = true)
     /\ (fst (serve (handleTest world cfg query))
           = errorResponse "Invalid folder/file name" 400
         <-> tokenMismatch cfg (url.Get query "token") = false
             /\ filepath.IsAbs (url.Get query "name") = true))
  /\ (exists base name,
        filepath.IsAbs name = false
        /\ strings.HasPrefix (filepath.Clean name) "../" = true
        /\ within base (filepath.Join [base; filepath.Clean name]) = false
        /\ forall world cfg query,
             basePath cfg = base -> url.Get query "name" = name ->
             tokenMismatch cfg (url.Get query "token") = false ->
             (exists rest,
                 snd (serve (handleOpen world cfg query))
                 = EvStat (filepath.Join [base; filepath.Clean name]) :: rest)
             /\ (exists rest,
                    snd (serve (handleTest world cfg query))
                    = EvStat (filepath.Join [base; filepath.Clean name])
                        :: rest)).
Proof.
  split.
  - intros world cfg query. split.
    + split.
      * intros H.
        destruct (decide (url.Get query "name" = EmptyString)) as [Hn|Hn].
        { rewrite open_missing_name in H by assumption. differ H. }
        destruct (tokenMismatch cfg (url.Get query "token")) eqn:Ht.
        { rewrite open_invalid_token in H by assumption. differ H. }
        destruct (filepath.IsAbs (url.Get query "name")) eqn:Ha; [auto|].
        exfalso.
        destruct (Stat world (resolved cfg query)) as [info|e] eqn:Hs.
        -- destruct (IsDir info) eqn:Hd.
           ++ destruct (Start world (revealCommand world (resolved cfg query)))
                as [e|] eqn:Hl.
              ** rewrite (open_start_failed _ _ _ info e) in H by assumption.
                 differ H.
              ** rewrite (open_started _ _ _ info) in H by assumption.
                 differ H.
           ++ rewrite (open_not_a_directory _ _ _ info) in H by assumption.
              differ H.
        -- rewrite (open_stat_error _ _ _ e) in H by assumption. differ H.
      * intros [Ht Ha]. pose proof (IsAbs_nonempty _ Ha) as Hn.
        now rewrite open_absolute_name.
    + split.
      * intros H.
        destruct (decide (url.Get query "name" = EmptyString)) as [Hn|Hn].
        { rewrite test_missing_name in H by assumption. differ H. }
        destruct (tokenMismatch cfg (url.Get query "token")) eqn:Ht.
        { rewrite test_invalid_token in H by assumption. differ H. }
        destruct (filepath.IsAbs (url.Get query "name")) eqn:Ha; [auto|].
        exfalso.
        destruct (Stat world (resolved cfg query)) as [info|e] eqn:Hs.
        -- destruct (decide (url.Get query "glob" = EmptyString)) as [Hg|Hg].
           ++ rewrite (test_no_glob _ _ _ info) in H by assumption. differ H.
           ++ destruct (Glob world (globPattern cfg query))
                as [files|e] eqn:Hp.
              ** rewrite (test_glob_result _ _ _ info files) in H
                   by assumption.
                 differ H.
              ** rewrite (test_bad_glob _ _ _ info e) in H by assumption.
                 differ H.
        -- rewrite (test_stat_error _ _ _ e) in H by assumption. differ H.
      * intros [Ht Ha]. pose proof (IsAbs_nonempty _ Ha) as Hn.
        now rewrite test_absolute_name.
  - exists "/home/u/Projects", "../../etc".
    split; [reflexivity|]. split; [vm_compute; reflexivity|].
    split; [vm_compute; reflexivity|].
    intros world cfg query Hb Hq Ht.
    assert (Hn : url.Get query "name" <> EmptyString)
      by (rewrite Hq; discriminate).
    assert (Ha : filepath.IsAbs (url.Get query "name") = false)
      by (rewrite Hq; reflexivity).
    destruct (open_stats_resolved world cfg query Hn Ht Ha) as [r1 H1].
    destruct (test_stats_resolved world cfg query Hn Ht Ha) as [r2 H2].
    unfold resolved in H1, H2. rewrite Hb, Hq in H1, H2. eauto.
Qed.

Lemma path_guard_rejects_exactly_absolute_names_witness :
  fst (serve (handleOpen demoWorld demoCfg
                {[ "name" := ["/etc"]; "token" := ["secret"] ]}))
  = errorResponse "Invalid folder/file name" 400.
Proof.
  apply (proj1 path_guard_rejects_exactly_absolute_names demoWorld demoCfg
           {[ "name" := ["/etc"]; "token" := ["secret"] ]}).
  split; vm_compute; reflexivity.
Defined.

(** The traversal at work: with the base [/home/u/Projects] the request for
    [../../etc] makes [/open] start the file manager on [/home/etc]. *)
Example open_escapes_base :
  serve (handleOpen demoWorld demoCfg
           {[ "name" := ["../../etc"]; "token" := ["secret"] ]})
  = (noContent,
     [EvStat "/home/etc"; EvStart (Command "xdg-open" ["/home/etc"])]).
Proof. vm_compute. reflexivity. Qed.

(** C2, as stated, fails where the required parameter is missing: the
    handler reports the missing parameter, not the token. *)
Lemma token_mismatch_reports_missing_name :
  token demoCfg <> EmptyString
  /\ url.Get {[ "token" := ["wrong"] ]} "token" <> token demoCfg
  /\ fst (serve (handleOpen demoWorld demoCfg {[ "token" := ["wrong"] ]}))
     = errorResponse "Missing ?name= parameter" 400
  /\ fst (serve (handleOpen demoWorld demoCfg {[ "token" := ["wrong"] ]}))
     <> errorResponse "Invalid Token" 400.
Proof.
  split; [discriminate|]. split; [vm_compute; discriminate|].
  split; [vm_compute; reflexivity|].
  intros H. differ H.
Qed.

(** C2, amended. When a non-empty token is configured and the supplied token
    differs from it, every endpoint responds with status 400 and calls
    nothing of the host (no stat, no pattern expansion, no process start, no
    print).  The error is the authorization error "Invalid Token" when the
    required parameter of the endpoint ([name], [class]) is not empty, and
    the missing-parameter error when it is. *)
Theorem token_mismatch_status_400_no_action world cfg query :
  token cfg <> EmptyString ->
  url.Get query "token" <> token cfg ->
  (http.StatusCode (fst (serve (handleOpen world cfg query))) = 400
   /\ snd (serve (handleOpen world cfg query)) = [])
  /\ (http.StatusCode (fst (serve (handleTest world cfg query))) = 400
      /\ snd (serve (handleTest world cfg query)) = [])
  /\ (http.StatusCode (fst (serve (handleStyle cfg query))) = 400
      /\ snd (serve (handleStyle cfg query)) = [])
  /\ (url.Get query "name" <> EmptyString ->
      fst (serve (handleOpen world cfg query))
        = errorResponse "Invalid Token" 400
      /\ fst (serve (handleTest world cfg query))
         = errorResponse "Invalid Token" 400)
  /\ (url.Get query "class" <> EmptyString ->
      fst (serve (handleStyle cfg query)) = errorResponse "Invalid Token" 400)
  /\ (url.Get query "name" = EmptyString ->
      fst (serve (handleOpen world cfg query))
        = errorResponse "Missing ?name= parameter" 400
      /\ fst (serve (handleTest world cfg query))
         = errorResponse "Missing ?name= parameter" 400)
  /\ (url.Get query "class" = EmptyString ->
      fst (serve (handleStyle cfg query))
        = errorResponse "Missing ?class= parameter" 400).
Proof.
  intros Hset Hdiff.
  assert (Ht : tokenMismatch cfg (url.Get query "token") = true)
    by (apply tokenMismatch_true; split; [exact Hset | congruence]).
  split; [|split; [|split; [|split; [|split; [|split]]]]].
  - destruct (decide (url.Get query "name" = EmptyString)) as [Hn|Hn];
      [now rewrite open_missing_name | now rewrite open_invalid_token].
  - destruct (decide (url.Get query "name" = EmptyString)) as [Hn|Hn];
      [now rewrite test_missing_name | now rewrite test_invalid_token].
  - destruct (decide (url.Get query "class" = EmptyString)) as [Hn|Hn];
      [now rewrite style_missing_class | now rewrite style_invalid_token].
  - intros Hn. now rewrite open_invalid_token, test_invalid_token.
  - intros Hn. now rewrite style_invalid_token.
  - intros Hn. now rewrite open_missing_name, test_missing_name.
  - intros Hn. now rewrite style_missing_class.
Qed.

Lemma token_mismatch_status_400_no_action_witness :
  (token demoCfg <> EmptyString
   /\ url.Get {[ "name" := ["site-a"]; "token" := ["wrong"] ]} "token"
      <> token demoCfg)
  /\ snd (serve (handleOpen demoWorld demoCfg
                   {[ "name" := ["site-a"]; "token" := ["wrong"] ]})) = [].
Proof.
  split; [split; [discriminate | vm_compute; discriminate]|].
  apply (token_mismatch_status_400_no_action demoWorld demoCfg
           {[ "name" := ["site-a"]; "token" := ["wrong"] ]}).
  - discriminate.
  - vm_compute. discriminate.
Defined.

(** C4, as stated, fails when the command cannot be started: the directory
    exists and the token is correct, but the response is 500. *)
Lemma open_existing_directory_start_fails :
  url.Get {[ "name" := ["site-a"]; "token" := ["secret"] ]} "token"
    = token demoCfg
  /\ Stat hostWithoutOpener
       (resolved demoCfg {[ "name" := ["site-a"]; "token" := ["secret"] ]})
     = Ok directory
  /\ serve (handleOpen hostWithoutOpener demoCfg
              {[ "name" := ["site-a"]; "token" := ["secret"] ]})
     = (errorResponse "Failed to open: executable file not found in $PATH" 500,
        [EvStat "/home/u/Projects/site-a";
         EvStart (Command "xdg-open" ["/home/u/Projects/site-a"])])
  /\ Start hostWithoutOpener (Command "xdg-open" ["/home/u/Projects/site-a"])
     <> None.
Proof. repeat split; try (vm_compute; reflexivity). discriminate. Qed.

(** The two other ways the statement fails: an absolute name and an empty
    name can resolve to an existing directory too, and are answered 400. *)
Example open_existing_directory_absolute_name :
  Stat demoWorld (resolved demoCfg {[ "name" := ["/site-a"];
                                      "token" := ["secret"] ]}) = Ok directory
  /\ fst (serve (handleOpen demoWorld demoCfg
                   {[ "name" := ["/site-a"]; "token" := ["secret"] ]}))
     = errorResponse "Invalid folder/file name" 400.
Proof. split; vm_compute; reflexivity. Qed.

Example open_existing_directory_empty_name :
  resolved demoCfg {[ "token" := ["secret"] ]} = basePath demoCfg
  /\ fst (serve (handleOpen demoWorld demoCfg {[ "token" := ["secret"] ]}))
     = errorResponse "Missing ?name= parameter" 400.
Proof. split; vm_compute; reflexivity. Qed.

(** C4, amended. For every non-empty, non-absolute name whose cleaned form
    joined onto the base is an existing directory, with the correct token,
    and when the start of the command succeeds, [/open] responds 204 with an
    empty body and starts exactly one command, the file manager of the host
    with the resolved path as its only argument; the resolved path is
    absolute when the base is, as [main] makes it. *)
Theorem open_existing_directory_launches world cfg query info :
  url.Get query "name" <> EmptyString ->
  filepath.IsAbs (url.Get query "name") = false ->
  url.Get query "token" = token cfg ->
  Stat world (resolved cfg query) = Ok info ->
  IsDir info = true ->
  Start world (revealCommand world (resolved cfg query)) = None ->
  serve (handleOpen world cfg query)
  = (noContent,
     [EvStat (resolved cfg query);
      EvStart (revealCommand world (resolved cfg query))])
  /\ (exists program,
         revealCommand world (resolved cfg query)
         = Command program [resolved cfg query])
  /\ (filepath.IsAbs (basePath cfg) = true ->
      filepath.IsAbs (resolved cfg query) = true).
Proof.
  intros Hn Ha Ht Hs Hd Hl. split; [|split].
  - apply (open_started world cfg query info); try assumption.
    now apply tokenMismatch_correct.
  - unfold revealCommand. repeat case_bool_decide; eauto.
  - apply Join_IsAbs.
Qed.

Lemma open_existing_directory_launches_witness :
  serve (handleOpen demoWorld demoCfg
           {[ "name" := ["site-a"]; "token" := ["secret"] ]})
  = (noContent,
     [EvStat "/home/u/Projects/site-a";
      EvStart (Command "xdg-open" ["/home/u/Projects/site-a"])]).
Proof.
  refine (proj1 (open_existing_directory_launches demoWorld demoCfg
           {[ "name" := ["site-a"]; "token" := ["secret"] ]} directory
           _ _ _ _ _ _)).
  - vm_compute. discriminate.
  - vm_compute. reflexivity.
  - vm_compute. reflexivity.
  - vm_compute. reflexivity.
  - reflexivity.
  - vm_compute. reflexivity.
Defined.

(** C6. For every name that passes the token check and the path guard and
    whose resolved path does not exist (the stat fails), [/open] responds 404
    "Not Found", and [/test] responds 200 with an SVG image filled red whose
    label is the supplied glob. *)
Theorem missing_path_404_and_red_badge world cfg query e :
  url.Get query "name" <> EmptyString ->
  tokenMismatch cfg (url.Get query "token") = false ->
  filepath.IsAbs (url.Get query "name") = false ->
  Stat world (resolved cfg query) = Err e ->
  fst (serve (handleOpen world cfg query)) = errorResponse "Not Found" 404
  /\ fst (serve (handleTest world cfg query))
     = typedResponse "image/svg+xml" (badge "red" (url.Get query "glob")).
Proof.
  intros Hn Ht Ha Hs.
  now rewrite (open_stat_error _ _ _ e), (test_stat_error _ _ _ e).
Qed.

Lemma missing_path_404_and_red_badge_witness :
  Stat demoWorld
    (resolved demoCfg
       {[ "name" := ["gone"]; "token" := ["secret"]; "glob" := ["a*"] ]})
  = Err "no such file or directory"
  /\ http.Body
       (fst (serve (handleTest demoWorld demoCfg
               {[ "name" := ["gone"]; "token" := ["secret"];
                  "glob" := ["a*"] ]})))
     = "<svg viewBox='0 0 16 16' xmlns='http://www.w3.org/2000/svg' font-family='monospace'><rect width='16' height='16' fill='red' /><text x='1' y='12'>a*</text></svg>".
Proof.
  split; [vm_compute; reflexivity|].
  refine (f_equal http.Body
            (proj2 (missing_path_404_and_red_badge demoWorld demoCfg
                      {[ "name" := ["gone"]; "token" := ["secret"];
                         "glob" := ["a*"] ]}
                      "no such file or directory" _ _ _ _))).
  - vm_compute. discriminate.
  - vm_compute. reflexivity.
  - vm_compute. reflexivity.
  - vm_compute. reflexivity.
Defined.

(** C7. For every [/test] request that passes the checks, whose resolved
    path exists and whose glob is not empty, with the pattern made of the
    base name of the glob under the resolved path: if the pattern expands to
    files of which at least one does not end in [.txt], the response is the
    200 green badge labelled with the glob; if it expands to files that all
    end in [.txt] (or to none), it is the 200 orange badge labelled with the
    glob; if the pattern is malformed, it is 400 "Bad Glob".  When the files
    are given by their names under one directory, the test is on the names:
    green exactly when some name does not end in [.txt]. *)
Theorem test_glob_badge world cfg query info :
  url.Get query "name" <> EmptyString ->
  tokenMismatch cfg (url.Get query "token") = false ->
  filepath.IsAbs (url.Get query "name") = false ->
  Stat world (resolved cfg query) = Ok info ->
  url.Get query "glob" <> EmptyString ->
  (forall files,
      Glob world (globPattern cfg query) = Ok files ->
      (exists f, f ∈ files /\ strings.HasSuffix f ".txt" = false) ->
      fst (serve (handleTest world cfg query))
      = typedResponse "image/svg+xml" (badge "green" (url.Get query "glob")))
  /\ (forall files,
         Glob world (globPattern cfg query) = Ok files ->
         (forall f, f ∈ files -> strings.HasSuffix f ".txt" = true) ->
         fst (serve (handleTest world cfg query))
         = typedResponse "image/svg+xml"
             (badge "orange" (url.Get query "glob")))
  /\ (forall e,
         Glob world (globPattern cfg query) = Err e ->
         fst (serve (handleTest world cfg query))
         = errorResponse "Bad Glob" 400)
  /\ (forall dir names,
         Glob world (globPattern cfg query)
         = Ok (map (fun n => dir +:+ "/" +:+ n) names) ->
         fst (serve (handleTest world cfg query))
         = typedResponse "image/svg+xml"
             (badge
                (if existsb (fun n => negb (strings.HasSuffix n ".txt")) names
                 then "green" else "orange")
                (url.Get query "glob"))).
Proof.
  intros Hn Ht Ha Hs Hg. split; [|split; [|split]]; cycle 3.
  { intros dir names Hp.
    rewrite (test_glob_result _ _ _ info _ Hn Ht Ha Hs Hg Hp).
    now rewrite rangeFiles_under. }
  - intros files Hp Hex. apply rangeFiles_true in Hex.
    rewrite (test_glob_result _ _ _ info files) by assumption.
    now rewrite Hex.
  - intros files Hp Hall. apply rangeFiles_false in Hall.
    rewrite (test_glob_result _ _ _ info files) by assumption.
    now rewrite Hall.
  - intros e Hp. now rewrite (test_bad_glob _ _ _ info e).
Qed.

Lemma test_glob_badge_witness :
  Glob demoWorld
    (globPattern demoCfg
       {[ "name" := ["site-a"]; "token" := ["secret"]; "glob" := ["x/*"] ]})
  = Ok ["/home/u/Projects/site-a/index.html";
        "/home/u/Projects/site-a/readme.txt"]
  /\ fst (serve (handleTest demoWorld demoCfg
                   {[ "name" := ["site-a"]; "token" := ["secret"];
                      "glob" := ["x/*"] ]}))
     = typedResponse "image/svg+xml" (badge "green" "x/*").
Proof.
  split; [vm_compute; reflexivity|].
  refine (proj1 (test_glob_badge demoWorld demoCfg
                   {[ "name" := ["site-a"]; "token" := ["secret"];
                      "glob" := ["x/*"] ]} directory _ _ _ _ _)
            ["/home/u/Projects/site-a/index.html";
             "/home/u/Projects/site-a/readme.txt"] _ _).
  - vm_compute. discriminate.
  - vm_compute. reflexivity.
  - vm_compute. reflexivity.
  - vm_compute. reflexivity.
  - vm_compute. discriminate.
  - vm_compute. reflexivity.
  - exists "/home/u/Projects/site-a/index.html".
    split; [left | vm_compute; reflexivity].
Defined.

(** C8. For every non-empty class and a passing token check, [/style]
    responds 200 with content type [text/css] and a body that is exactly the
    one rule for that class, whatever the class contains. *)
Theorem style_rule_for_class cfg query :
  url.Get query "class" <> EmptyString ->
  tokenMismatch cfg (url.Get query "token") = false ->
  fst (serve (handleStyle cfg query))
  = {| http.StatusCode := 200;
       http.Header := {[ "Content-Type" := ["text/css"] ]};
       http.Body :=
         "." +:+ url.Get query "class"
             +:+ " { display: initial !important; }" |}
  /\ snd (serve (handleStyle cfg query)) = [].
Proof. intros Hn Ht. now rewrite style_rule. Qed.

Lemma style_rule_for_class_witness :
  http.Body
    (fst (serve (handleStyle demoCfg
                   {[ "class" := ["a%s b"]; "token" := ["secret"] ]})))
  = ".a%s b { display: initial !important; }".
Proof.
  refine (f_equal http.Body
            (proj1 (style_rule_for_class demoCfg
                      {[ "class" := ["a%s b"]; "token" := ["secret"] ]}
                      _ _))).
  - vm_compute. discriminate.
  - vm_compute. reflexivity.
Defined.

(** C9. With the empty string as configured token the token check passes for
    every request and every supplied token, none included: no endpoint
    answers "Invalid Token", and each request goes on to the checks that
    remain, the path guard and the stat of the resolved path in [/open] and
    [/test], the rule in [/style]. *)
Theorem empty_token_disables_check world cfg query :
  token cfg = EmptyString ->
  tokenMismatch cfg (url.Get query "token") = false
  /\ fst (serve (handleOpen world cfg query))
     <> errorResponse "Invalid Token" 400
  /\ fst (serve (handleTest world cfg query))
     <> errorResponse "Invalid Token" 400
  /\ fst (serve (handleStyle cfg query)) <> errorResponse "Invalid Token" 400
  /\ (filepath.IsAbs (url.Get query "name") = true ->
      fst (serve (handleOpen world cfg query))
        = errorResponse "Invalid folder/file name" 400
      /\ fst (serve (handleTest world cfg query))
         = errorResponse "Invalid folder/file name" 400)
  /\ (url.Get query "name" <> EmptyString ->
      filepath.IsAbs (url.Get query "name") = false ->
      (exists rest,
          snd (serve (handleOpen world cfg query))
          = EvStat (resolved cfg query) :: rest)
      /\ (exists rest,
             snd (serve (handleTest world cfg query))
             = EvStat (resolved cfg query) :: rest))
  /\ (url.Get query "class" <> EmptyString ->
      fst (serve (handleStyle cfg query))
      = typedResponse "text/css"
          ("." +:+ url.Get query "class"
               +:+ " { display: initial !important; }")).
Proof.
  intros Hempty.
  pose proof (tokenMismatch_empty cfg (url.Get query "token") Hempty) as Ht.
  split; [exact Ht|]. split; [|split; [|split; [|split; [|split]]]].
  - intros H.
    destruct (decide (url.Get query "name" = EmptyString)) as [Hn|Hn].
    + rewrite open_missing_name in H by assumption. differ H.
    + destruct (filepath.IsAbs (url.Get query "name")) eqn:Ha.
      * rewrite open_absolute_name in H by assumption. differ H.
      * apply (open_past_guard world cfg query Hn Ht Ha). now rewrite H.
  - intros H.
    destruct (decide (url.Get query "name" = EmptyString)) as [Hn|Hn].
    + rewrite test_missing_name in H by assumption. differ H.
    + destruct (filepath.IsAbs (url.Get query "name")) eqn:Ha.
      * rewrite test_absolute_name in H by assumption. differ H.
      * destruct (test_past_guard world cfg query Hn Ht Ha) as [H2|H2];
          rewrite H in H2; [discriminate H2 | differ H2].
  - intros H.
    destruct (decide (url.Get query "class" = EmptyString)) as [Hn|Hn].
    + rewrite style_missing_class in H by assumption. differ H.
    + rewrite style_rule in H by assumption. differ H.
  - intros Ha. pose proof (IsAbs_nonempty _ Ha) as Hn.
    now rewrite open_absolute_name, test_absolute_name.
  - intros Hn Ha. split.
    + now apply open_stats_resolved.
    + now apply test_stats_resolved.
  - intros Hn. now rewrite style_rule.
Qed.

Lemma empty_token_disables_check_witness :
  token openCfg = EmptyString
  /\ tokenMismatch openCfg
       (url.Get {[ "name" := ["site-a"]; "token" := ["anything"] ]} "token")
     = false.
Proof.
  split; [reflexivity|].
  refine (proj1 (empty_token_disables_check demoWorld openCfg
                   {[ "name" := ["site-a"]; "token" := ["anything"] ]} _)).
  reflexivity.
Defined.

(** An empty configured token at work: no token and any token open the
    directory alike. *)
Example open_without_token :
  serve (handleOpen demoWorld openCfg {[ "name" := ["site-a"] ]})
  = (noContent,
     [EvStat "/home/u/Projects/site-a";
      EvStart (Command "xdg-open" ["/home/u/Projects/site-a"])])
  /\ serve (handleOpen demoWorld openCfg
              {[ "name" := ["site-a"]; "token" := ["anything"] ]})
     = serve (handleOpen demoWorld openCfg {[ "name" := ["site-a"] ]}).
Proof. split; vm_compute; reflexivity. Qed.

(** C10. [/test] asks only that the stat of the resolved path succeeds, not
    that the path is a directory: for a name that passes the token check and
    the path guard and resolves to an existing file that is not a directory,
    with an empty glob, [/test] responds 200 with the fixed green badge while
    [/open] responds 404. *)
Theorem test_accepts_regular_file world cfg query info :
  url.Get query "name" <> EmptyString ->
  tokenMismatch cfg (url.Get query "token") = false ->
  filepath.IsAbs (url.Get query "name") = false ->
  Stat world (resolved cfg query) = Ok info ->
  IsDir info = false ->
  url.Get query "glob" = EmptyString ->
  fst (serve (handleTest world cfg query))
  = {| http.StatusCode := 200;
       http.Header := {[ "Content-Type" := ["image/svg+xml"] ]};
       http.Body := svgGreen |}
  /\ fst (serve (handleOpen world cfg query)) = errorResponse "Not Found" 404.
Proof.
  intros Hn Ht Ha Hs Hd Hg.
  now rewrite (test_no_glob _ _ _ info), (open_not_a_directory _ _ _ info).
Qed.

Lemma test_accepts_regular_file_witness :
  Stat demoWorld
    (resolved demoCfg {[ "name" := ["notes.md"]; "token" := ["secret"] ]})
  = Ok regularFile
  /\ http.StatusCode
       (fst (serve (handleTest demoWorld demoCfg
                      {[ "name" := ["notes.md"]; "token" := ["secret"] ]})))
     = 200
  /\ http.StatusCode
       (fst (serve (handleOpen demoWorld demoCfg
                      {[ "name" := ["notes.md"]; "token" := ["secret"] ]})))
     = 404.
Proof.
  split; [vm_compute; reflexivity|].
  assert (H := test_accepts_regular_file demoWorld demoCfg
                 {[ "name" := ["notes.md"]; "token" := ["secret"] ]}
                 regularFile).
  destruct H as [H1 H2].
  - vm_compute. discriminate.
  - vm_compute. reflexivity.
  - vm_compute. reflexivity.
  - vm_compute. reflexivity.
  - reflexivity.
  - vm_compute. reflexivity.
  - rewrite H1, H2. split; reflexivity.
Defined.

(** Whether the existing path is a directory plays no part in [/test]. *)
Lemma test_ignores_IsDir world cfg query info :
  Stat world (resolved cfg query) = Ok info ->
  serve (handleTest world cfg query)
  = serve (handleTest
             {| GOOS := GOOS world;
                Stat := fun p =>
                  match Stat world p with
                  | Ok i => Ok {| IsDir := negb (IsDir i) |}
                  | Err e => Err e
                  end;
                Glob := Glob world; Start := Start world |} cfg query).
Proof.
  intros Hs. unfold handleTest. repeat case_bool_decide; try reflexivity;
    destruct (tokenMismatch cfg (url.Get query "token")); try reflexivity;
    destruct (filepath.IsAbs (url.Get query "name")); try reflexivity;
    run; cbn [Stat Glob]; unfold resolved in Hs; rewrite Hs; reflexivity.
Qed.

(** * Further properties *)

(** ** The loop of [Clean] *)

Section CleanLoopFacts.

Import filepath.

Lemma cleanLoop_run fuel : forall rooted rest out dotdot,
  cleanLoop fuel rooted rest out dotdot
  = (cleanRun fuel rooted rest out dotdot).1.
Proof.
  induction fuel as [|fuel IH]; intros rooted rest out dotdot; [reflexivity|].
  destruct rest as [|c r1]; [reflexivity|].
  cbn [cleanLoop cleanRun].
  repeat match goal with
    | |- context [if ?b then _ else _] => destruct b
    | |- context [let '(_, _) := ?p in _] => destruct p
    end; apply IH.
Qed.

Lemma cleanRun_fuel f1 : forall f2 rooted rest out dotdot,
  length rest <= f1 -> length rest <= f2 ->
  cleanRun f1 rooted rest out dotdot = cleanRun f2 rooted rest out dotdot.
Proof.
  induction f1 as [|f1 IH]; intros f2 rooted rest out dotdot H1 H2.
  - destruct rest; [|simpl in H1; lia]. now destruct f2.
  - destruct f2 as [|f2]; [destruct rest; [reflexivity | simpl in H2; lia]|].
    destruct rest as [|c r1]; [reflexivity|]. simpl in H1, H2.
    cbn [cleanRun].
    destruct (IsPathSeparator c) eqn:Hc; [apply IH; lia|].
    destruct (isDot c && endOrSeparator r1); [apply IH; lia|].
    assert (Htl : length (tail r1) <= length r1) by (destruct r1; simpl; lia).
    destruct (isDot c && isDot (hd Separator r1) && endOrSeparator (tail r1)).
    + destruct (dotdot <? length out); [apply IH; lia|].
      destruct (negb rooted); apply IH; lia.
    + cbn [copyElement]. rewrite Hc.
      pose proof (copyElement_length r1) as Hlen.
      destruct (copyElement r1) as [el r']. simpl in Hlen.
      apply IH; lia.
Qed.

Lemma run_fuel fuel rooted rest out dotdot :
  length rest <= fuel ->
  cleanRun fuel rooted rest out dotdot = run rooted rest out dotdot.
Proof. intros H. apply cleanRun_fuel; [exact H | reflexivity]. Qed.

Lemma run_nil rooted out dotdot : run rooted [] out dotdot = (out, dotdot).
Proof. reflexivity. Qed.

Lemma run_cons rooted c r1 out dotdot :
  run rooted (c :: r1) out dotdot
  = if IsPathSeparator c then run rooted r1 out dotdot
    else if isDot c && endOrSeparator r1 then run rooted r1 out dotdot
    else if isDot c && isDot (hd Separator r1) && endOrSeparator (tl r1) then
      if (dotdot <? length out) then
        run rooted (tl r1)
            (take (backtrack out dotdot (length out - 1)) out) dotdot
      else if negb rooted then
        run rooted (tl r1)
            ((if (0 <? length out) then out ++ [Separator] else out)
               ++ ["."%char; "."%char])
            (length ((if (0 <? length out) then out ++ [Separator] else out)
                       ++ ["."%char; "."%char]))
      else run rooted (tl r1) out dotdot
    else
      run rooted (copyElement (c :: r1)).2
          ((if (rooted && negb (length out =? 1))
               || (negb rooted && negb (length out =? 0))
            then out ++ [Separator] else out) ++ (copyElement (c :: r1)).1)
          dotdot.
Proof.
  unfold run at 1. cbn [length cleanRun].
  assert (Htl : length (tail r1) <= length r1) by (destruct r1; simpl; lia).
  destruct (IsPathSeparator c) eqn:Hc; [now apply run_fuel|].
  destruct (isDot c && endOrSeparator r1); [now apply run_fuel|].
  destruct (isDot c && isDot (hd Separator r1) && endOrSeparator (tail r1)).
  - destruct (dotdot <? length out); [now apply run_fuel|].
    destruct (negb rooted); now apply run_fuel.
  - cbn [copyElement]. rewrite Hc.
    pose proof (copyElement_length r1) as Hlen.
    destruct (copyElement r1) as [el r']. simpl in Hlen.
    now apply run_fuel.
Qed.

Lemma endOrSeparator_app r1 b :
  endOrSeparator (r1 ++ Separator :: b) = endOrSeparator r1.
Proof. now destruct r1. Qed.

Lemma hd_app_separator r1 b :
  hd Separator (r1 ++ Separator :: b) = hd Separator r1.
Proof. now destruct r1. Qed.

Lemma copyElement_app a b :
  copyElement (a ++ Separator :: b)
  = ((copyElement a).1, (copyElement a).2 ++ Separator :: b).
Proof.
  induction a as [|c a IH]; [reflexivity|].
  cbn [app copyElement]. destruct (IsPathSeparator c); [reflexivity|].
  rewrite IH. now destruct (copyElement a).
Qed.

Lemma copyElement_length_cons c r :
  IsPathSeparator c = false -> length (copyElement (c :: r)).2 <= length r.
Proof.
  intros Hc. cbn [copyElement]. rewrite Hc.
  pose proof (copyElement_length r) as Hlen.
  now destruct (copyElement r).
Qed.

(** Reading [a], a separator and [b] is reading [a] and then [b]. *)
Lemma run_app rooted n : forall a b out dotdot,
  length a <= n ->
  run rooted (a ++ Separator :: b) out dotdot
  = run rooted b (run rooted a out dotdot).1 (run rooted a out dotdot).2.
Proof.
  induction n as [|n IH]; intros a b out dotdot Hn.
  - destruct a; [|simpl in Hn; lia]. cbn [app]. now rewrite run_cons, run_nil.
  - destruct a as [|c r1].
    { cbn [app]. now rewrite run_cons, run_nil. }
    simpl in Hn. cbn [app]. rewrite !(run_cons rooted c).
    rewrite endOrSeparator_app, hd_app_separator.
    destruct (IsPathSeparator c) eqn:Hc; [apply IH; lia|].
    destruct (isDot c && endOrSeparator r1); [apply IH; lia|].
    destruct r1 as [|c2 r2].
    + cbn [hd]. change (isDot Separator) with false.
      rewrite andb_false_r. cbn [andb app]. cbn [copyElement].
      rewrite Hc. change (IsPathSeparator Separator) with true. cbn [fst snd].
      now rewrite run_cons, run_nil.
    + simpl in Hn. cbn [hd tl app]. rewrite endOrSeparator_app.
      destruct (isDot c && isDot c2 && endOrSeparator r2).
      * destruct (dotdot <? length out); [apply IH; simpl; lia|].
        destruct (negb rooted); apply IH; simpl; lia.
      * change (c :: c2 :: r2 ++ Separator :: b)
          with ((c :: c2 :: r2) ++ Separator :: b).
        rewrite copyElement_app. cbn [fst snd].
        apply IH.
        pose proof (copyElement_length_cons c (c2 :: r2) Hc) as Hlen.
        cbn [length] in Hlen. lia.
Qed.

Lemma copyElement_elem s rest :
  Forall (fun c => IsPathSeparator c = false) s ->
  endOrSeparator rest = true ->
  copyElement (s ++ rest) = (s, rest).
Proof.
  intros Hs Hr. induction Hs as [|c s Hc Hs IH]; cbn [app].
  - destruct rest as [|c rest]; [reflexivity|]. simpl in Hr.
    cbn [copyElement]. now rewrite Hr.
  - cbn [copyElement]. now rewrite Hc, IH.
Qed.

Lemma isDot_true c : isDot c = true -> c = "."%char.
Proof. apply bool_decide_eq_true. Qed.

Lemma run_elem rooted s rest out dotdot :
  isElem s -> endOrSeparator rest = true ->
  run rooted (s ++ rest) out dotdot = run rooted rest (push rooted out s) dotdot.
Proof.
  intros (Hne & Hs & Hdot & Hdots) Hr.
  destruct s as [|c s1]; [done|]. cbn [app]. rewrite run_cons.
  pose proof (Forall_inv Hs) as Hc. pose proof (Forall_inv_tail Hs) as Hs1.
  cbn beta in Hc. rewrite Hc.
  assert (H2 : isDot c && endOrSeparator (s1 ++ rest) = false).
  { apply not_true_is_false. intros [Hd He]%andb_true_iff.
    apply isDot_true in Hd. subst c.
    destruct s1 as [|c2 s2]; [done|].
    simpl in He. apply Forall_inv in Hs1. cbn beta in Hs1. congruence. }
  rewrite H2.
  assert (H3 : isDot c && isDot (hd Separator (s1 ++ rest))
               && endOrSeparator (tl (s1 ++ rest)) = false).
  { apply not_true_is_false.
    intros [[Hd Hd2]%andb_true_iff He]%andb_true_iff.
    apply isDot_true in Hd. subst c.
    destruct s1 as [|c2 s2].
    - cbn [app] in Hd2. destruct rest as [|x rest]; [discriminate Hd2|].
      simpl in Hr, Hd2. apply isDot_true in Hd2. subst x. discriminate Hr.
    - simpl in Hd2, He. apply isDot_true in Hd2. subst c2.
      destruct s2 as [|c3 s3]; [done|].
      simpl in He. apply Forall_inv_tail, Forall_inv in Hs1.
      cbn beta in Hs1. congruence. }
  rewrite H3.
  change (c :: s1 ++ rest) with ((c :: s1) ++ rest).
  now rewrite copyElement_elem.
Qed.

Lemma run_dot rooted rest out dotdot :
  endOrSeparator rest = true ->
  run rooted ("."%char :: rest) out dotdot = run rooted rest out dotdot.
Proof.
  intros Hr. rewrite run_cons. change (IsPathSeparator ".") with false.
  change (isDot ".") with true. now rewrite Hr.
Qed.

Lemma run_dotdot rooted rest out dotdot :
  endOrSeparator rest = true ->
  run rooted ("."%char :: "."%char :: rest) out dotdot
  = if dotdot <? length out then
      run rooted rest (take (backtrack out dotdot (length out - 1)) out) dotdot
    else if negb rooted then
      run rooted rest (pushDots out) (length (pushDots out))
    else run rooted rest out dotdot.
Proof.
  intros Hr. rewrite run_cons. change (IsPathSeparator ".") with false.
  change (isDot ".") with true. cbn [endOrSeparator hd tl andb].
  change (IsPathSeparator ".") with false. now rewrite Hr.
Qed.

Lemma run_separator rooted rest out dotdot :
  run rooted (Separator :: rest) out dotdot = run rooted rest out dotdot.
Proof. now rewrite run_cons. Qed.

(** The backward scan stops at the first index that holds a separator or
    equals [dotdot]. *)
Lemma backtrack_scan buf dotdot L j :
  (forall i, L < i <= L + j -> IsPathSeparator (nth i buf Separator) = false) ->
  dotdot <= L ->
  dotdot = L \/ IsPathSeparator (nth L buf Separator) = true ->
  backtrack buf dotdot (L + j) = L.
Proof.
  intros Hs Hle Hstop. induction j as [|j IH].
  - rewrite Nat.add_0_r. destruct L as [|L]; [reflexivity|].
    cbn [backtrack]. destruct Hstop as [-> | ->].
    + now rewrite Nat.ltb_irrefl.
    + now rewrite andb_false_r.
  - rewrite Nat.add_succ_r. cbn [backtrack].
    rewrite (proj2 (Nat.ltb_lt dotdot (S (L + j)))) by lia.
    rewrite Hs by lia. cbn [andb negb]. apply IH. intros i Hi. apply Hs. lia.
Qed.

Lemma Shape_le rooted out dotdot : Shape rooted out dotdot -> dotdot <= length out.
Proof.
  induction 1 as [| | |out dd s _ IH _]; try (simpl; lia).
  unfold push. destruct (_ || _); rewrite !length_app; lia.
Qed.

Lemma Shape_rooted out dotdot :
  Shape true out dotdot -> dotdot = 1 /\ exists o, out = Separator :: o.
Proof.
  induction 1 as [| | |out dd s _ [-> [o ->]] _]; try discriminate.
  - eauto.
  - split; [reflexivity|]. unfold push.
    destruct (_ || _); cbn [app]; eauto.
Qed.

Lemma nth_after (pre l : list ascii) k :
  nth (length pre + k) (pre ++ l) Separator = nth k l Separator.
Proof. induction pre; [reflexivity | assumption]. Qed.

Lemma Forall_nth_not_separator (s : list ascii) k :
  Forall (fun c => IsPathSeparator c = false) s -> k < length s ->
  IsPathSeparator (nth k s Separator) = false.
Proof.
  intros Hs. revert k. induction Hs as [|c s Hc _ IH]; intros k Hk.
  - simpl in Hk. lia.
  - destruct k as [|k]; [exact Hc|]. simpl in Hk. apply IH. lia.
Qed.

(** Removing the last element gives back the state before it was added. *)
Lemma Shape_pop rooted out dotdot :
  Shape rooted out dotdot -> dotdot < length out ->
  Shape rooted (take (backtrack out dotdot (length out - 1)) out) dotdot.
Proof.
  intros Hshape Hlt.
  destruct Hshape as [Hr|Hr|out0 Hr Hsh|out0 dd s Hsh Hel];
    try (simpl in Hlt; lia).
  pose proof (Shape_le _ _ _ Hsh) as Hle.
  destruct Hel as (Hne & Hs & _).
  unfold push in *.
  destruct ((rooted && negb (length out0 =? 1))
            || (negb rooted && negb (length out0 =? 0))) eqn:Hsep.
  - rewrite <- app_assoc. cbn [app].
    replace (length (out0 ++ Separator :: s) - 1) with (length out0 + length s)
      by (rewrite length_app; simpl; lia).
    rewrite backtrack_scan.
    + now rewrite take_app_length.
    + intros i Hi. replace i with (length out0 + S (i - length out0 - 1)) by lia.
      rewrite nth_after. cbn [nth].
      apply Forall_nth_not_separator; [exact Hs | lia].
    + exact Hle.
    + right. rewrite <- (Nat.add_0_r (length out0)). now rewrite nth_after.
  - assert (Hdd : dd = length out0).
    { destruct rooted.
      - destruct (Shape_rooted _ _ Hsh) as [-> _].
        cbn [andb negb orb] in Hsep. rewrite orb_false_r in Hsep.
        apply negb_false_iff, Nat.eqb_eq in Hsep. congruence.
      - cbn [andb negb orb] in Hsep.
        apply negb_false_iff, Nat.eqb_eq in Hsep. lia. }
    destruct s as [|x s]; [done|].
    replace (length (out0 ++ x :: s) - 1) with (length out0 + length s)
      by (rewrite length_app; simpl; lia).
    rewrite backtrack_scan.
    + now rewrite take_app_length.
    + intros i Hi. replace i with (length out0 + S (i - length out0 - 1)) by lia.
      rewrite nth_after. cbn [nth].
      apply Forall_nth_not_separator; [now apply Forall_inv_tail in Hs | lia].
    + lia.
    + left. exact Hdd.
Qed.

Lemma copyElement_not_separator l :
  Forall (fun c => IsPathSeparator c = false) (copyElement l).1.
Proof.
  induction l as [|c l IH]; [constructor|]. cbn [copyElement].
  destruct (IsPathSeparator c) eqn:Hc; [constructor|].
  destruct (copyElement l). now constructor.
Qed.

Lemma copyElement_nil l : (copyElement l).1 = [] -> endOrSeparator l = true.
Proof.
  destruct l as [|c l]; [reflexivity|]. cbn [copyElement endOrSeparator].
  destruct (IsPathSeparator c); [reflexivity|]. now destruct (copyElement l).
Qed.

Lemma copyElement_cons c l :
  IsPathSeparator c = false ->
  (copyElement (c :: l)).1 = c :: (copyElement l).1.
Proof. intros Hc. cbn [copyElement]. rewrite Hc. now destruct (copyElement l). Qed.

Lemma copyElement_isElem c r1 :
  IsPathSeparator c = false ->
  isDot c && endOrSeparator r1 = false ->
  isDot c && isDot (hd Separator r1) && endOrSeparator (tl r1) = false ->
  isElem (copyElement (c :: r1)).1.
Proof.
  intros Hc H2 H3. pose proof (copyElement_not_separator (c :: r1)) as Hs.
  rewrite copyElement_cons in * by exact Hc.
  split; [discriminate|]. split; [exact Hs|]. split.
  - intros [= -> He]. apply copyElement_nil in He. now rewrite He in H2.
  - intros [= -> He]. destruct r1 as [|x r2]; [discriminate He|].
    apply Forall_inv_tail in Hs.
    destruct (IsPathSeparator x) eqn:Hx.
    { cbn [copyElement] in He. rewrite Hx in He. discriminate He. }
    rewrite copyElement_cons in He by exact Hx. injection He as -> He.
    apply copyElement_nil in He. cbn [hd tl] in H3. now rewrite He in H3.
Qed.

(** Every state the loop reaches from a state of this shape has it. *)
Lemma run_shape rooted n : forall rest out dotdot,
  length rest <= n -> Shape rooted out dotdot ->
  Shape rooted (run rooted rest out dotdot).1 (run rooted rest out dotdot).2.
Proof.
  induction n as [|n IH]; intros rest out dotdot Hn Hsh.
  - destruct rest; [exact Hsh | simpl in Hn; lia].
  - destruct rest as [|c r1]; [exact Hsh|]. simpl in Hn. rewrite run_cons.
    assert (Htl : length (tail r1) <= length r1) by (destruct r1; simpl; lia).
    destruct (IsPathSeparator c) eqn:Hc; [apply IH; [lia | exact Hsh]|].
    destruct (isDot c && endOrSeparator r1) eqn:H2;
      [apply IH; [lia | exact Hsh]|].
    destruct (isDot c && isDot (hd Separator r1) && endOrSeparator (tail r1))
      eqn:H3.
    + destruct (dotdot <? length out) eqn:Hlt.
      * apply IH; [lia|]. apply Shape_pop; [exact Hsh|]. now apply Nat.ltb_lt.
      * destruct rooted; cbn [negb]; [apply IH; [lia | exact Hsh]|].
        apply IH; [lia|].
        fold (pushDots out). apply shape_dots; [reflexivity|].
        apply Nat.ltb_ge in Hlt. pose proof (Shape_le _ _ _ Hsh).
        replace (length out) with dotdot by lia. exact Hsh.
    + apply IH.
      * pose proof (copyElement_length_cons c r1 Hc). lia.
      * fold (push rooted out (copyElement (c :: r1)).1).
        apply shape_push; [exact Hsh|]. now apply copyElement_isElem.
Qed.

Lemma isElem_endOr_nil : endOrSeparator [] = true.
Proof. reflexivity. Qed.

Lemma run_rebuild rooted out dotdot :
  Shape rooted out dotdot ->
  run rooted (unrooted rooted out) (initial rooted).1 (initial rooted).2
  = (out, dotdot).
Proof.
  induction 1 as [Hr|Hr|out Hr Hsh IH|out dd s Hsh IH Hel].
  - subst rooted. reflexivity.
  - subst rooted. reflexivity.
  - subst rooted. cbn [unrooted initial fst snd] in *.
    destruct out as [|x out']; [reflexivity|].
    assert (E : pushDots (x :: out')
                = (x :: out') ++ Separator :: ["."%char; "."%char]).
    { unfold pushDots. change (0 <? length (x :: out')) with true. cbv iota.
      now rewrite <- app_assoc. }
    rewrite E at 1.
    rewrite (run_app false (length (x :: out'))) by reflexivity.
    rewrite IH. cbn [fst snd]. rewrite run_dotdot by reflexivity.
    rewrite Nat.ltb_irrefl. reflexivity.
  - unfold push.
    destruct ((rooted && negb (length out =? 1))
              || (negb rooted && negb (length out =? 0))) eqn:Hsep.
    + assert (Hu : unrooted rooted ((out ++ [Separator]) ++ s)
                   = unrooted rooted out ++ Separator :: s).
      { rewrite <- app_assoc. cbn [app]. destruct rooted; [|reflexivity].
        destruct (Shape_rooted _ _ Hsh) as [_ [o ->]]. reflexivity. }
      rewrite Hu, (run_app rooted (length (unrooted rooted out)))
        by reflexivity.
      rewrite IH. cbn [fst snd].
      rewrite <- (app_nil_r s) at 1. rewrite run_elem by (exact Hel || reflexivity).
      rewrite run_nil. unfold push. now rewrite Hsep.
    + assert (Hout : out = (initial rooted).1 /\ dd = (initial rooted).2).
      { pose proof (Shape_le _ _ _ Hsh) as Hle. destruct rooted.
        - destruct (Shape_rooted _ _ Hsh) as [-> [o ->]].
          cbn [andb negb orb] in Hsep. rewrite orb_false_r in Hsep.
          apply negb_false_iff, Nat.eqb_eq in Hsep.
          destruct o; [done | discriminate Hsep].
        - cbn [andb negb orb] in Hsep.
          apply negb_false_iff, Nat.eqb_eq in Hsep.
          destruct out; [|discriminate Hsep]. simpl in Hle.
          split; [reflexivity | simpl; lia]. }
      destruct Hout as [-> ->].
      assert (Hu : unrooted rooted ((initial rooted).1 ++ s) = s)
        by now destruct rooted.
      rewrite Hu. rewrite <- (app_nil_r s) at 1.
      rewrite run_elem by (exact Hel || reflexivity).
      rewrite run_nil. unfold push. now rewrite Hsep.
Qed.

Lemma bytes_append (a b : string) :
  list_ascii_of_string (a +:+ b)
  = list_ascii_of_string a ++ list_ascii_of_string b.
Proof.
  induction a as [|c a IH]; [reflexivity|].
  rewrite append_cons. cbn [list_ascii_of_string app]. now rewrite IH.
Qed.

Lemma string_append (a b : list ascii) :
  string_of_list_ascii (a ++ b)
  = string_of_list_ascii a +:+ string_of_list_ascii b.
Proof.
  induction a as [|c a IH]; [reflexivity|].
  cbn [app string_of_list_ascii]. now rewrite append_cons, IH.
Qed.

Lemma Shape_initial rooted :
  Shape rooted (initial rooted).1 (initial rooted).2.
Proof. destruct rooted; now constructor. Qed.

Lemma Shape_unrooted_head out dotdot :
  Shape false out dotdot -> endOrSeparator out = true -> out = [].
Proof.
  induction 1 as [| |out _ _ IH|out dd s _ IH (Hne & Hs & _)]; intros He.
  - discriminate.
  - reflexivity.
  - unfold pushDots in He. destruct out as [|x out]; [discriminate He|].
    simpl in He. now specialize (IH He).
  - unfold push in He. destruct out as [|x out].
    + cbn [negb andb orb length Nat.eqb app] in He.
      destruct s as [|c s]; [done|]. apply Forall_inv in Hs. simpl in *.
      congruence.
    + simpl in He. now specialize (IH He).
Qed.

(** [Clean] as the loop from its initial state. *)
Lemma Clean_rooted rest :
  Clean (String Separator rest)
  = string_of_list_ascii
      (run true (list_ascii_of_string rest) [Separator] 1).1.
Proof.
  unfold Clean. cbn [list_ascii_of_string].
  change (IsPathSeparator Separator) with true. cbv iota zeta.
  rewrite cleanLoop_run. fold (run true (list_ascii_of_string rest) [Separator] 1).
  pose proof (run_shape true _ (list_ascii_of_string rest) _ _
                (Nat.le_refl _) (shape_root true eq_refl)) as Hsh.
  destruct (Shape_rooted _ _ Hsh) as [_ [o ->]]. reflexivity.
Qed.

Lemma Clean_unrooted c rest :
  IsPathSeparator c = false ->
  Clean (String c rest)
  = match (run false (c :: list_ascii_of_string rest) [] 0).1 with
    | [] => "."
    | out => string_of_list_ascii out
    end.
Proof.
  intros Hc. unfold Clean. cbn [list_ascii_of_string]. rewrite Hc.
  cbv iota zeta. rewrite cleanLoop_run.
  fold (run false (c :: list_ascii_of_string rest) [] 0).
  now destruct (run false (c :: list_ascii_of_string rest) [] 0).1.
Qed.

Lemma IsAbs_false_inv c rest :
  IsAbs (String c rest) = false -> IsPathSeparator c = false.
Proof.
  intros H. apply bool_decide_eq_false. intros ->.
  now rewrite IsAbs_rooted in H.
Qed.

(** The cleaned form of a path: [.], or a buffer the loop can reach. *)
Lemma Clean_shape path :
  Clean path = "."
  \/ exists out dotdot,
       out <> [] /\ Clean path = string_of_list_ascii out
       /\ Shape (IsAbs path) out dotdot.
Proof.
  destruct path as [|c rest]; [now left|].
  destruct (IsAbs (String c rest)) eqn:Ha.
  - destruct (IsAbs_inv _ Ha) as [rest' [= -> <-]]. right.
    pose proof (run_shape true _ (list_ascii_of_string rest) _ _
                  (Nat.le_refl _) (shape_root true eq_refl)) as Hsh.
    exists (run true (list_ascii_of_string rest) [Separator] 1).1,
           (run true (list_ascii_of_string rest) [Separator] 1).2.
    split; [|split; [apply Clean_rooted | exact Hsh]].
    destruct (Shape_rooted _ _ Hsh) as [_ [o ->]]. discriminate.
  - pose proof (IsAbs_false_inv _ _ Ha) as Hc.
    rewrite (Clean_unrooted _ _ Hc).
    pose proof (run_shape false _ (c :: list_ascii_of_string rest) _ _
                  (Nat.le_refl _) (shape_empty false eq_refl)) as Hsh.
    destruct (run false (c :: list_ascii_of_string rest) [] 0) as [out dd].
    cbn [fst snd] in *. destruct out as [|x out]; [now left|]. right.
    exists (x :: out), dd. split; [discriminate|]. split; [reflexivity|exact Hsh].
Qed.

(** Cleaning a buffer of this shape gives it back. *)
Lemma Clean_of_shape rooted out dotdot :
  Shape rooted out dotdot -> out <> [] ->
  Clean (string_of_list_ascii out) = string_of_list_ascii out.
Proof.
  intros Hsh Hne. pose proof (run_rebuild _ _ _ Hsh) as Hrun.
  destruct rooted.
  - destruct (Shape_rooted _ _ Hsh) as [_ [o ->]].
    cbn [string_of_list_ascii]. rewrite Clean_rooted.
    rewrite list_ascii_of_string_of_list_ascii.
    cbn [unrooted tl initial fst snd] in Hrun. now rewrite Hrun.
  - destruct out as [|x o]; [done|].
    assert (Hx : IsPathSeparator x = false).
    { destruct (IsPathSeparator x) eqn:Hx; [|reflexivity].
      now pose proof (Shape_unrooted_head _ _ Hsh Hx). }
    cbn [string_of_list_ascii]. rewrite (Clean_unrooted _ _ Hx).
    rewrite list_ascii_of_string_of_list_ascii.
    cbn [unrooted initial fst snd] in Hrun. now rewrite Hrun.
Qed.

(** [Clean] is idempotent. *)
Lemma Clean_idempotent path : Clean (Clean path) = Clean path.
Proof.
  destruct (Clean_shape path) as [->|(out & dd & Hne & -> & Hsh)].
  - reflexivity.
  - now apply (Clean_of_shape _ _ _ Hsh).
Qed.

(** [Clean] keeps a path absolute or relative as it was. *)
Lemma IsAbs_Clean path : IsAbs (Clean path) = IsAbs path.
Proof.
  destruct (IsAbs path) eqn:Ha; [now apply Clean_IsAbs|].
  destruct (Clean_shape path) as [->|(out & dd & Hne & -> & Hsh)];
    [reflexivity|].
  rewrite Ha in Hsh. destruct out as [|x o]; [done|].
  destruct (IsAbs (string_of_list_ascii (x :: o))) eqn:Hx; [|reflexivity].
  apply IsAbs_inv in Hx as [r [= -> _]].
  now pose proof (Shape_unrooted_head _ _ Hsh eq_refl).
Qed.

Lemma prefix_empty (s : string) : String.prefix EmptyString s = true.
Proof. now destruct s. Qed.

Lemma prefix_append (a b : string) : String.prefix a (a +:+ b) = true.
Proof.
  induction a as [|c a IH]; [apply prefix_empty|].
  rewrite append_cons. cbn [String.prefix].
  destruct (ascii_dec c c) as [_|Hne]; [exact IH | now destruct Hne].
Qed.

Lemma Join_absolute base c :
  IsAbs base = true -> Join [base; c] = Clean (base +:+ "/" +:+ c).
Proof.
  intros [rest ->]%IsAbs_inv. cbn [Join].
  now rewrite bool_decide_false by discriminate.
Qed.

(** Joining onto a clean absolute base continues the loop from the base. *)
Lemma Join_run base :
  IsAbs base = true -> Clean base = base ->
  exists B, string_of_list_ascii B = base /\ Shape true B 1
            /\ forall c, Join [base; c]
                         = string_of_list_ascii
                             (run true (list_ascii_of_string c) B 1).1.
Proof.
  intros Ha Hclean. pose proof Ha as [b0 ->]%IsAbs_inv.
  pose proof (run_shape true _ (list_ascii_of_string b0) _ _
                (Nat.le_refl _) (shape_root true eq_refl)) as Hsh.
  rewrite Clean_rooted in Hclean.
  destruct (run true (list_ascii_of_string b0) [Separator] 1) as [B d] eqn:Hrun.
  cbn [fst snd] in *. destruct (Shape_rooted _ _ Hsh) as [-> _].
  exists B. split; [exact Hclean|]. split; [exact Hsh|].
  intros c. rewrite Join_absolute by exact Ha.
  change ("/" +:+ c) with (String Separator c).
  rewrite append_cons, Clean_rooted, bytes_append. cbn [list_ascii_of_string].
  rewrite (run_app true (length (list_ascii_of_string b0))) by reflexivity.
  now rewrite Hrun.
Qed.

Lemma Shape_dotdot_prefix out dotdot :
  Shape false out dotdot -> 0 < dotdot ->
  exists t, out = "."%char :: "."%char :: t /\ endOrSeparator t = true.
Proof.
  induction 1 as [| |out _ Hsh IH|out dd s _ IH _]; intros Hpos.
  - discriminate.
  - lia.
  - unfold pushDots. destruct out as [|x out]; [now exists []|].
    destruct IH as (t & -> & Ht); [simpl; lia|].
    cbn [length Nat.ltb Nat.leb app]. rewrite <- app_assoc. cbn [app].
    eexists. split; [reflexivity|]. now destruct t.
  - destruct (IH Hpos) as (t & -> & Ht). unfold push.
    cbn [negb andb orb length Nat.eqb app]. rewrite <- app_assoc. cbn [app].
    eexists. split; [reflexivity|]. now destruct t.
Qed.

Lemma leadingDotDot_shape out dotdot :
  Shape false out dotdot -> 0 < dotdot ->
  leadingDotDot (string_of_list_ascii out) = true.
Proof.
  intros Hsh Hpos. destruct (Shape_dotdot_prefix _ _ Hsh Hpos) as (t & -> & Ht).
  destruct t as [|x t]; [reflexivity|]. simpl in Ht.
  apply bool_decide_eq_true in Ht. subst x.
  unfold leadingDotDot. apply orb_true_iff. right.
  cbn [string_of_list_ascii]. apply (prefix_append "../").
Qed.

(** The elements of a relative path without leading [..], read onto a
    rooted buffer, are appended to it. *)
Lemma run_onto B :
  Shape true B 1 ->
  forall out dotdot, Shape false out dotdot -> dotdot = 0 -> out <> [] ->
  exists t, t <> []
    /\ run true out B 1
       = ((if length B =? 1 then B else B ++ [Separator]) ++ t, 1).
Proof.
  intros HB. induction 1 as [| |out _ Hsh _|out dd s Hsh IH Hel];
    intros Hdd Hne.
  - discriminate.
  - done.
  - unfold pushDots in Hdd. rewrite length_app in Hdd. simpl in Hdd. lia.
  - destruct (Shape_rooted _ _ HB) as [_ [o HBo]].
    destruct out as [|x out].
    + unfold push at 1. cbn [negb andb orb length Nat.eqb app].
      exists s. split; [apply Hel|].
      rewrite <- (app_nil_r s) at 1.
      rewrite run_elem by (exact Hel || reflexivity). rewrite run_nil.
      unfold push. cbn [andb]. now destruct (length B =? 1).
    + destruct (IH Hdd) as (t & Ht & Hrun); [discriminate|].
      unfold push at 1. cbn [negb andb orb length Nat.eqb].
      rewrite <- app_assoc. cbn [app].
      change (x :: out ++ Separator :: s) with ((x :: out) ++ Separator :: s).
      rewrite (run_app true (length (x :: out))) by reflexivity.
      rewrite Hrun. cbn [fst snd].
      exists (t ++ Separator :: s). split; [now destruct t|].
      rewrite <- (app_nil_r s) at 1.
      rewrite run_elem by (exact Hel || reflexivity). rewrite run_nil.
      unfold push. cbn [andb].
      assert (Hlen :
        (length ((if length B =? 1 then B else B ++ [Separator]) ++ t) =? 1)
        = false).
      { apply Nat.eqb_neq. subst B. destruct t; [done|].
        destruct (_ =? 1); rewrite !length_app; simpl; lia. }
      rewrite Hlen. cbn [negb orb]. now rewrite <- !app_assoc.
Qed.

Lemma within_refl base : within base base = true.
Proof. unfold within. now rewrite bool_decide_true. Qed.

Lemma within_onto B t :
  Shape true B 1 ->
  within (string_of_list_ascii B)
    (string_of_list_ascii ((if length B =? 1 then B else B ++ [Separator]) ++ t))
  = true.
Proof.
  intros HB. destruct (Shape_rooted _ _ HB) as [_ [o ->]].
  unfold within. apply orb_true_iff. right. unfold strings.HasPrefix.
  destruct o as [|x o].
  - cbn [length Nat.eqb app string_of_list_ascii].
    change (strings.HasSuffix "/" "/") with true. cbv iota.
    apply (IsAbs_rooted (string_of_list_ascii t)).
  - change (length (Separator :: x :: o) =? 1) with false. cbv iota.
    rewrite !string_append.
    destruct (strings.HasSuffix _ "/").
    + rewrite append_assoc. apply prefix_append.
    + apply (prefix_append (_ +:+ "/")).
Qed.

(** A relative name whose cleaned form does not begin with [..] stays
    within a clean absolute base. *)
Lemma Join_within base name :
  IsAbs base = true -> Clean base = base ->
  IsAbs name = false -> leadingDotDot (Clean name) = false ->
  within base (Join [base; Clean name]) = true.
Proof.
  intros Ha Hclean Hrel Hdots.
  destruct (Join_run base Ha Hclean) as (B & HB & Hsh & Hjoin).
  rewrite Hjoin.
  destruct (Clean_shape name) as [->|(out & dd & Hne & Hc & Hout)].
  - cbn [list_ascii_of_string]. rewrite run_dot, run_nil by reflexivity.
    cbn [fst]. rewrite HB. apply within_refl.
  - rewrite Hc in *. rewrite Hrel in Hout.
    rewrite list_ascii_of_string_of_list_ascii.
    destruct dd as [|dd].
    + destruct (run_onto B Hsh out 0 Hout eq_refl Hne) as (t & _ & ->).
      cbn [fst]. rewrite <- HB. now apply within_onto.
    + rewrite (leadingDotDot_shape out (S dd)) in Hdots by (assumption || lia).
      discriminate.
Qed.

(** A name that cleans to [.] names the base itself. *)
Lemma Join_dot base name :
  IsAbs base = true -> Clean base = base -> Clean name = "." ->
  Join [base; Clean name] = base.
Proof.
  intros Ha Hclean Hdot.
  destruct (Join_run base Ha Hclean) as (B & HB & Hsh & Hjoin).
  rewrite Hjoin, Hdot. cbn [list_ascii_of_string].
  now rewrite run_dot, run_nil by reflexivity.
Qed.

Lemma lastElement_not_separator l :
  Forall (fun c => IsPathSeparator c = false) (lastElement l).
Proof.
  induction l as [|c l IH]; [constructor|]. cbn [lastElement].
  destruct (IsPathSeparator c) eqn:Hc; now constructor.
Qed.

(** [Base] returns [.], the separator, or one element without separator. *)
Lemma Base_cases path :
  Base path = "." \/ Base path = "/"
  \/ exists s, s <> [] /\ Forall (fun c => IsPathSeparator c = false) s
               /\ Base path = string_of_list_ascii s.
Proof.
  unfold Base. destruct (list_ascii_of_string path) as [|c p]; [now left|].
  destruct (rev (lastElement (stripSlashes (rev (c :: p))))) as [|x s] eqn:Hb;
    [now right; left|].
  right. right. exists (x :: s). split; [discriminate|]. split; [|reflexivity].
  rewrite <- Hb. apply Forall_rev, lastElement_not_separator.
Qed.

Lemma resolved_clean cfg query :
  IsAbs (basePath cfg) = true ->
  IsAbs (resolved cfg query) = true
  /\ Clean (resolved cfg query) = resolved cfg query.
Proof.
  intros Ha. split; [now apply Join_IsAbs|].
  unfold resolved. rewrite Join_absolute by exact Ha. apply Clean_idempotent.
Qed.

(** Unless the base name of the glob is [..], the pattern [/test] expands
    stays within the resolved path. *)
Lemma globPattern_stays cfg query :
  IsAbs (basePath cfg) = true ->
  Base (url.Get query "glob") <> ".." ->
  within (resolved cfg query) (globPattern cfg query) = true.
Proof.
  intros Ha Hdd. destruct (resolved_clean cfg query Ha) as [Habs Hclean].
  destruct (Join_run _ Habs Hclean) as (B & HB & Hsh & Hjoin).
  unfold globPattern. rewrite Hjoin. rewrite <- HB at 1.
  destruct (Base_cases (url.Get query "glob")) as [->|[->|(s & Hne & Hs & Hb)]].
  - cbn [list_ascii_of_string]. rewrite run_dot, run_nil by reflexivity.
    apply within_refl.
  - cbn [list_ascii_of_string]. rewrite run_separator, run_nil.
    apply within_refl.
  - rewrite Hb in *. rewrite list_ascii_of_string_of_list_ascii.
    destruct (decide (s = ["."%char])) as [->|Hdot].
    { rewrite run_dot, run_nil by reflexivity. apply within_refl. }
    assert (Hel : isElem s).
    { repeat split; try assumption. intros ->. now apply Hdd. }
    rewrite <- (app_nil_r s). rewrite run_elem by (exact Hel || reflexivity).
    rewrite run_nil. cbn [fst]. unfold push. cbn [andb negb orb].
    rewrite orb_false_r.
    replace (if negb (length B =? 1) then B ++ [Separator] else B)
      with (if length B =? 1 then B else B ++ [Separator])
      by now destruct (length B =? 1).
    now apply within_onto.
Qed.

(** X14. The pattern [/test] expands names the resolved path itself or something
    under it, whatever the glob, unless the base name of the glob is [..]:
    only the last element of the glob is used, so a glob cannot reach into
    another directory except the parent. *)
Theorem glob_pattern_within_resolved cfg query :
  filepath.IsAbs (basePath cfg) = true ->
  filepath.Base (url.Get query "glob") <> ".." ->
  within (resolved cfg query) (globPattern cfg query) = true.
Proof. intros Habs Hglob. now apply globPattern_stays. Qed.

Lemma glob_pattern_within_resolved_witness :
  filepath.Base
    (url.Get {[ "name" := ["site-a"]; "glob" := ["../x/*.md"] ]} "glob")
  = "*.md"
  /\ within
       (resolved demoCfg {[ "name" := ["site-a"]; "glob" := ["../x/*.md"] ]})
       (globPattern demoCfg
          {[ "name" := ["site-a"]; "glob" := ["../x/*.md"] ]}) = true.
Proof.
  split; [vm_compute; reflexivity|].
  apply (glob_pattern_within_resolved demoCfg
           {[ "name" := ["site-a"]; "glob" := ["../x/*.md"] ]}).
  - vm_compute. reflexivity.
  - vm_compute. discriminate.
Defined.

Example globPattern_parent :
  globPattern demoCfg {[ "name" := ["site-a"]; "glob" := [".."] ]}
  = "/home/u/Projects"
  /\ within (resolved demoCfg {[ "name" := ["site-a"]; "glob" := [".."] ]})
       (globPattern demoCfg {[ "name" := ["site-a"]; "glob" := [".."] ]})
     = false.
Proof. split; vm_compute; reflexivity. Qed.

End CleanLoopFacts.

(** ** Startup *)

Example main_demo :
  main demoWorld demoProcess
  = (["Base path: /home/u/Projects/site-a" +:+ newline;
      "Listening on http://localhost:4455" +:+ newline;
      "Example:" +:+ newline
        +:+ " http://localhost:4455/open?name=.&token=secret" +:+ newline],
     ListenAndServe "localhost:4455"
       {| basePath := "/home/u/Projects/site-a"; port := "4455";
          token := "secret" |}).
Proof. vm_compute. reflexivity. Qed.

(** The path [filepath.Abs] returns is absolute and clean, when the working
    directory is absolute. *)
Lemma Abs_clean getwd path abs :
  (forall wd, getwd = Ok wd -> filepath.IsAbs wd = true) ->
  Abs getwd path = Ok abs ->
  filepath.IsAbs abs = true /\ filepath.Clean abs = abs.
Proof.
  intros Hwd. unfold Abs. destruct (filepath.IsAbs path) eqn:Ha.
  - intros [= <-]. split; [now apply Clean_IsAbs | apply Clean_idempotent].
  - destruct getwd as [wd|e]; [|discriminate]. intros Heq.
    assert (abs = filepath.Join [wd; path]) as -> by congruence.
    specialize (Hwd wd eq_refl). split; [now apply Join_IsAbs|].
    rewrite Join_absolute by exact Hwd. apply Clean_idempotent.
Qed.

Lemma main_serving world proc addr cfg :
  (forall wd, Getwd proc = Ok wd -> filepath.IsAbs wd = true) ->
  (main world proc).2 = ListenAndServe addr cfg ->
  filepath.IsAbs (basePath cfg) = true
  /\ filepath.Clean (basePath cfg) = basePath cfg
  /\ (exists info, Stat world (basePath cfg) = Ok info /\ IsDir info = true)
  /\ Abs (Getwd proc) (default "." (flagBase proc)) = Ok (basePath cfg)
  /\ port cfg = default "4455" (flagPort proc)
  /\ token cfg = default EmptyString (flagToken proc)
  /\ addr = "localhost:" +:+ port cfg.
Proof.
  intros Hwd. unfold main.
  destruct (Abs (Getwd proc) (default "." (flagBase proc))) as [abs|e] eqn:Habs;
    [|discriminate].
  destruct (Stat world abs) as [info|e] eqn:Hs;
    [|destruct (IsNotExist proc e); discriminate].
  destruct (IsDir info) eqn:Hd; [|discriminate].
  cbn [negb snd]. intros [= <- <-]. cbn [basePath port token].
  destruct (Abs_clean _ _ _ Hwd Habs) as [Ha Hc].
  repeat split; try assumption; try reflexivity. eauto.
Qed.

(** X15. When [main] goes on to serve, the base path it leaves in the package
    variable is absolute and clean and was an existing directory at the
    stat; port and token are the flags or their defaults ([4455], empty);
    and the address it listens on is [localhost] with that port.  The
    working directory is taken to be absolute, as [os.Getwd] returns it. *)
Theorem main_serves_clean_directory world proc addr cfg :
  (forall wd, Getwd proc = Ok wd -> filepath.IsAbs wd = true) ->
  (main world proc).2 = ListenAndServe addr cfg ->
  filepath.IsAbs (basePath cfg) = true
  /\ filepath.Clean (basePath cfg) = basePath cfg
  /\ (exists info, Stat world (basePath cfg) = Ok info /\ IsDir info = true)
  /\ Abs (Getwd proc) (default "." (flagBase proc)) = Ok (basePath cfg)
  /\ port cfg = default "4455" (flagPort proc)
  /\ token cfg = default EmptyString (flagToken proc)
  /\ addr = "localhost:" +:+ port cfg.
Proof. intros Hwd Hmain. now apply (main_serving world proc addr cfg). Qed.

Lemma main_serves_clean_directory_witness :
  (main demoWorld demoProcess).2
  = ListenAndServe "localhost:4455"
      {| basePath := "/home/u/Projects/site-a"; port := "4455";
         token := "secret" |}
  /\ filepath.Clean "/home/u/Projects/site-a" = "/home/u/Projects/site-a".
Proof.
  split; [vm_compute; reflexivity|].
  refine (proj1 (proj2 (main_serves_clean_directory demoWorld demoProcess
                          "localhost:4455"
                          {| basePath := "/home/u/Projects/site-a";
                             port := "4455"; token := "secret" |} _ _))).
  - intros wd [= <-]. reflexivity.
  - vm_compute. reflexivity.
Defined.


(** ** The handlers, way by way *)

Lemma accepted_true cfg query :
  accepted cfg query = true <->
  url.Get query "name" <> EmptyString
  /\ tokenMismatch cfg (url.Get query "token") = false
  /\ filepath.IsAbs (url.Get query "name") = false.
Proof.
  unfold accepted.
  rewrite !andb_true_iff, !negb_true_iff, bool_decide_eq_false. tauto.
Qed.

Lemma accepted_intro cfg query :
  url.Get query "name" <> EmptyString ->
  tokenMismatch cfg (url.Get query "token") = false ->
  filepath.IsAbs (url.Get query "name") = false ->
  accepted cfg query = true.
Proof. intros. now apply accepted_true. Qed.

Lemma open_case world cfg query : OpenCase world cfg query.
Proof.
  destruct (decide (url.Get query "name" = EmptyString)) as [Hn|Hn].
  { apply OpenMissing; [exact Hn | now apply open_missing_name]. }
  destruct (tokenMismatch cfg (url.Get query "token")) eqn:Ht.
  { apply OpenToken; [exact Hn | exact Ht | now apply open_invalid_token]. }
  destruct (filepath.IsAbs (url.Get query "name")) eqn:Ha.
  { apply OpenAbsolute; try assumption. now apply open_absolute_name. }
  pose proof (accepted_intro cfg query Hn Ht Ha) as Hacc.
  destruct (Stat world (resolved cfg query)) as [info|e] eqn:Hs.
  - destruct (IsDir info) eqn:Hd.
    + destruct (Start world (revealCommand world (resolved cfg query)))
        as [e|] eqn:Hl.
      * apply (OpenStartFailed _ _ _ info e); try assumption.
        now apply (open_start_failed _ _ _ info e).
      * apply (OpenStarted _ _ _ info); try assumption.
        now apply (open_started _ _ _ info).
    + apply (OpenNotDirectory _ _ _ info); try assumption.
      now apply (open_not_a_directory _ _ _ info).
  - apply (OpenStatError _ _ _ e); try assumption.
    now apply (open_stat_error _ _ _ e).
Qed.

Lemma test_case world cfg query : TestCase world cfg query.
Proof.
  destruct (decide (url.Get query "name" = EmptyString)) as [Hn|Hn].
  { apply TestMissing; [exact Hn | now apply test_missing_name]. }
  destruct (tokenMismatch cfg (url.Get query "token")) eqn:Ht.
  { apply TestToken; [exact Hn | exact Ht | now apply test_invalid_token]. }
  destruct (filepath.IsAbs (url.Get query "name")) eqn:Ha.
  { apply TestAbsolute; try assumption. now apply test_absolute_name. }
  pose proof (accepted_intro cfg query Hn Ht Ha) as Hacc.
  destruct (Stat world (resolved cfg query)) as [info|e] eqn:Hs.
  - destruct (decide (url.Get query "glob" = EmptyString)) as [Hg|Hg].
    + apply (TestNoGlob _ _ _ info); try assumption.
      now apply (test_no_glob _ _ _ info).
    + destruct (Glob world (globPattern cfg query)) as [files|e] eqn:Hp.
      * apply (TestBadge _ _ _ info files); try assumption.
        now apply (test_glob_result _ _ _ info files).
      * apply (TestBadGlob _ _ _ info e); try assumption.
        now apply (test_bad_glob _ _ _ info e).
  - apply (TestStatError _ _ _ e); try assumption.
    now apply (test_stat_error _ _ _ e).
Qed.

Lemma rejected cfg query :
  url.Get query "name" = EmptyString
  \/ tokenMismatch cfg (url.Get query "token") = true
  \/ filepath.IsAbs (url.Get query "name") = true ->
  accepted cfg query = false.
Proof.
  unfold accepted. intros [H|[H|H]].
  - now rewrite (bool_decide_true _ H).
  - rewrite H. apply andb_false_intro1, andb_false_r.
  - rewrite H. apply andb_false_r.
Qed.

Ltac open_cases world cfg query :=
  destruct (open_case world cfg query)
    as [Hn Hrun|Hn Ht Hrun|Hn Ht Ha Hrun|e Hacc Hs Hrun|info Hacc Hs Hd Hrun
        |info e Hacc Hs Hd Hl Hrun|info Hacc Hs Hd Hl Hrun];
  rewrite Hrun; cbn [fst snd errorResponse noContent http.StatusCode http.Header];
  try (assert (Hacc : accepted cfg query = false) by (apply rejected; auto)).

Ltac test_cases world cfg query :=
  destruct (test_case world cfg query)
    as [Hn Hrun|Hn Ht Hrun|Hn Ht Ha Hrun|e Hacc Hs Hrun|info Hacc Hs Hg Hrun
        |info e Hacc Hs Hg Hp Hrun|info files Hacc Hs Hg Hp Hrun];
  rewrite Hrun;
  cbn [fst snd errorResponse typedResponse http.StatusCode http.Header];
  try (assert (Hacc : accepted cfg query = false) by (apply rejected; auto)).

(** X1. The status of [/open] tells how far the request got. *)
Theorem open_status_table world cfg query :
  (http.StatusCode (serve (handleOpen world cfg query)).1 = 204
   <-> accepted cfg query = true
       /\ statDirectory world (resolved cfg query) = true
       /\ Start world (revealCommand world (resolved cfg query)) = None)
  /\ (http.StatusCode (serve (handleOpen world cfg query)).1 = 500
      <-> accepted cfg query = true
          /\ statDirectory world (resolved cfg query) = true
          /\ Start world (revealCommand world (resolved cfg query)) <> None)
  /\ (http.StatusCode (serve (handleOpen world cfg query)).1 = 404
      <-> accepted cfg query = true
          /\ statDirectory world (resolved cfg query) = false)
  /\ (http.StatusCode (serve (handleOpen world cfg query)).1 = 400
      <-> accepted cfg query = false).
Proof.
  unfold statDirectory.
  open_cases world cfg query; try rewrite Hs; try rewrite Hd; try rewrite Hl;
    repeat split; intros; try discriminate; try congruence;
    repeat match goal with H : _ /\ _ |- _ => destruct H end;
    congruence.
Qed.

(** X2. [/open] starts a command only on the resolved path of an accepted
    request, after the stat reported a directory, and then only one. *)
Theorem open_starts_only_checked_directory world cfg query cmd :
  EvStart cmd ∈ (serve (handleOpen world cfg query)).2 ->
  accepted cfg query = true
  /\ statDirectory world (resolved cfg query) = true
  /\ cmd = revealCommand world (resolved cfg query)
  /\ (serve (handleOpen world cfg query)).2
     = [EvStat (resolved cfg query); EvStart cmd].
Proof.
  unfold statDirectory.
  open_cases world cfg query; unfold guardPrints;
    rewrite ?elem_of_cons, ?elem_of_nil; intros Hin;
    repeat match goal with
      | H : _ \/ _ |- _ => destruct H
      | H : False |- _ => destruct H
      | H : EvStart _ = _ |- _ => try discriminate H; injection H as ->
      end;
    rewrite Hs, Hd; auto.
Qed.

Lemma open_starts_only_checked_directory_witness :
  EvStart (Command "xdg-open" ["/home/u/Projects/site-a"])
    ∈ (serve (handleOpen demoWorld demoCfg
                {[ "name" := ["site-a"]; "token" := ["secret"] ]})).2
  /\ statDirectory demoWorld
       (resolved demoCfg {[ "name" := ["site-a"]; "token" := ["secret"] ]})
     = true.
Proof.
  assert (Hin : EvStart (Command "xdg-open" ["/home/u/Projects/site-a"])
    ∈ (serve (handleOpen demoWorld demoCfg
                {[ "name" := ["site-a"]; "token" := ["secret"] ]})).2).
  { vm_compute. apply list_elem_of_further, list_elem_of_here. }
  split; [exact Hin|].
  exact (proj1 (proj2 (open_starts_only_checked_directory demoWorld demoCfg
                         {[ "name" := ["site-a"]; "token" := ["secret"] ]}
                         _ Hin))).
Defined.

(** X3. [/test] answers 200 or 400, never starts a command, and expands a
    pattern only for an accepted request with a glob whose resolved path
    exists. *)
Theorem test_statuses_and_calls world cfg query :
  (http.StatusCode (serve (handleTest world cfg query)).1 = 200
   \/ http.StatusCode (serve (handleTest world cfg query)).1 = 400)
  /\ (forall cmd, EvStart cmd ∉ (serve (handleTest world cfg query)).2)
  /\ (forall pattern,
         EvGlob pattern ∈ (serve (handleTest world cfg query)).2 ->
         accepted cfg query = true
         /\ url.Get query "glob" <> EmptyString
         /\ (exists info, Stat world (resolved cfg query) = Ok info)
         /\ pattern = globPattern cfg query)
  /\ (http.StatusCode (serve (handleTest world cfg query)).1 = 400
      <-> accepted cfg query = false
          \/ (exists info e,
                 Stat world (resolved cfg query) = Ok info
                 /\ url.Get query "glob" <> EmptyString
                 /\ Glob world (globPattern cfg query) = Err e)).
Proof.
  test_cases world cfg query; unfold guardPrints;
    (split; [auto|]);
    (split; [intros cmd; rewrite ?elem_of_cons, ?elem_of_nil;
             intros Hin;
             repeat match goal with
               | H : _ \/ _ |- _ => destruct H
               | H : False |- _ => destruct H
               | H : EvStart _ = _ |- _ => discriminate H
               end|]);
    (split; [intros pattern; rewrite ?elem_of_cons, ?elem_of_nil;
             intros Hin;
             repeat match goal with
               | H : _ \/ _ |- _ => destruct H
               | H : False |- _ => destruct H
               | H : EvGlob _ = _ |- _ =>
                   try discriminate H; injection H as ->
               end; eauto 6|]);
    (split; [intros Hst; try discriminate Hst; eauto 8|]);
    intros [Hrej|(info' & e' & Hs' & Hg' & Hp')];
    try reflexivity; congruence.
Qed.

Lemma accepted_false cfg query :
  accepted cfg query = false ->
  url.Get query "name" = EmptyString
  \/ (url.Get query "name" <> EmptyString
      /\ tokenMismatch cfg (url.Get query "token") = true)
  \/ (url.Get query "name" <> EmptyString
      /\ tokenMismatch cfg (url.Get query "token") = false
      /\ filepath.IsAbs (url.Get query "name") = true).
Proof.
  intros Hacc.
  destruct (decide (url.Get query "name" = EmptyString)) as [Hn|Hn]; [auto|].
  destruct (tokenMismatch cfg (url.Get query "token")) eqn:Ht; [auto|].
  destruct (filepath.IsAbs (url.Get query "name")) eqn:Ha; [auto|].
  now rewrite (accepted_intro cfg query Hn Ht Ha) in Hacc.
Qed.

(** X7. A request that the name, token or guard check rejects is answered
    without regard to the host. *)
Theorem rejected_request_ignores_host world1 world2 cfg query :
  accepted cfg query = false ->
  serve (handleOpen world1 cfg query) = serve (handleOpen world2 cfg query)
  /\ serve (handleTest world1 cfg query) = serve (handleTest world2 cfg query).
Proof.
  intros [Hn|[[Hn Ht]|(Hn & Ht & Ha)]]%accepted_false.
  - now rewrite !open_missing_name, !test_missing_name.
  - now rewrite !open_invalid_token, !test_invalid_token.
  - now rewrite !open_absolute_name, !test_absolute_name.
Qed.

Lemma rejected_request_ignores_host_witness :
  accepted demoCfg {[ "name" := ["site-a"]; "token" := ["wrong"] ]} = false
  /\ serve (handleOpen demoWorld demoCfg
              {[ "name" := ["site-a"]; "token" := ["wrong"] ]})
     = serve (handleOpen hostWithoutOpener demoCfg
                {[ "name" := ["site-a"]; "token" := ["wrong"] ]}).
Proof.
  split; [vm_compute; reflexivity|].
  refine (proj1 (rejected_request_ignores_host demoWorld hostWithoutOpener
                   demoCfg {[ "name" := ["site-a"]; "token" := ["wrong"] ]}
                   _)).
  vm_compute. reflexivity.
Defined.

(** X8. The headers of a response follow from its status: errors are plain text
    that must not be sniffed, a badge is an SVG image, the rule is CSS, and
    204 has no header. *)
Theorem response_headers world cfg query :
  http.Header (serve (handleOpen world cfg query)).1
  = (if http.StatusCode (serve (handleOpen world cfg query)).1 =? 204
     then ∅ else plainTextHeader)
  /\ http.Header (serve (handleTest world cfg query)).1
     = (if http.StatusCode (serve (handleTest world cfg query)).1 =? 200
        then {[ "Content-Type" := ["image/svg+xml"] ]} else plainTextHeader)
  /\ http.Header (serve (handleStyle cfg query)).1
     = (if http.StatusCode (serve (handleStyle cfg query)).1 =? 200
        then {[ "Content-Type" := ["text/css"] ]} else plainTextHeader).
Proof.
  split; [|split].
  - open_cases world cfg query; reflexivity.
  - test_cases world cfg query; reflexivity.
  - destruct (decide (url.Get query "class" = EmptyString)) as [Hn|Hn].
    + now rewrite style_missing_class.
    + destruct (tokenMismatch cfg (url.Get query "token")) eqn:Ht.
      * now rewrite style_invalid_token.
      * now rewrite style_rule.
Qed.

(** X5. [/test] applies the checks of [/open] that come before the stat in the
    same order. *)
Theorem test_first_failing_check world cfg query before c after :
  [CheckName; CheckToken; CheckGuard] = before ++ c :: after ->
  Forall (fun c' => checkFails world cfg query c' = false) before ->
  checkFails world cfg query c = true ->
  (serve (handleTest world cfg query)).1 = checkResponse c
  /\ hostCalls (serve (handleTest world cfg query)).2 = [].
Proof.
  intros Horder Hbefore Hfail.
  assert (Hcases :
    (before = [] /\ c = CheckName)
    \/ (before = [CheckName] /\ c = CheckToken)
    \/ (before = [CheckName; CheckToken] /\ c = CheckGuard)).
  { destruct before as [|b1 [|b2 [|b3 before]]];
      injection Horder as <-; intros; subst; auto.
    destruct before; discriminate. }
  destruct Hcases as [[-> ->] | [[-> ->] | [-> ->]]];
    repeat match goal with
      | H : Forall _ (_ :: _) |- _ => apply Forall_cons in H as [? H]
      end;
    cbn [checkFails] in *;
    repeat match goal with
      | H : bool_decide _ = true |- _ => apply bool_decide_eq_true in H
      | H : bool_decide _ = false |- _ => apply bool_decide_eq_false in H
      end.
  - rewrite test_missing_name by assumption. auto.
  - rewrite test_invalid_token by assumption. auto.
  - rewrite test_absolute_name by assumption. auto.
Qed.

Lemma test_first_failing_check_witness :
  checkFails demoWorld demoCfg
    {[ "name" := ["/etc"]; "token" := ["secret"] ]} CheckGuard = true
  /\ (serve (handleTest demoWorld demoCfg
               {[ "name" := ["/etc"]; "token" := ["secret"] ]})).1
     = errorResponse "Invalid folder/file name" 400.
Proof.
  split; [vm_compute; reflexivity|].
  refine (proj1 (test_first_failing_check demoWorld demoCfg
                   {[ "name" := ["/etc"]; "token" := ["secret"] ]}
                   [CheckName; CheckToken] CheckGuard [] _ _ _)).
  - reflexivity.
  - repeat (constructor; [vm_compute; reflexivity|]). constructor.
  - vm_compute. reflexivity.
Defined.

(** X6. [/style] answers 200 exactly when the class is there and the token is
    accepted, reports a missing class before a wrong token, and never calls
    the host. *)
Theorem style_outcomes cfg query :
  (http.StatusCode (serve (handleStyle cfg query)).1 = 200
   <-> url.Get query "class" <> EmptyString
       /\ tokenMismatch cfg (url.Get query "token") = false)
  /\ (http.StatusCode (serve (handleStyle cfg query)).1 = 200
      \/ http.StatusCode (serve (handleStyle cfg query)).1 = 400)
  /\ (url.Get query "class" = EmptyString ->
      (serve (handleStyle cfg query)).1
      = errorResponse "Missing ?class= parameter" 400)
  /\ (serve (handleStyle cfg query)).2 = [].
Proof.
  destruct (decide (url.Get query "class" = EmptyString)) as [Hn|Hn].
  - rewrite style_missing_class by assumption.
    repeat split; auto; try discriminate. now intros [? _].
  - destruct (tokenMismatch cfg (url.Get query "token")) eqn:Ht.
    + rewrite style_invalid_token by assumption.
      repeat split; auto; try discriminate; intros; try done.
      now destruct H.
    + rewrite style_rule by assumption. repeat split; auto. done.
Qed.

Lemma substring_zero n : forall s, substring n 0 s = EmptyString.
Proof. induction n as [|n IH]; intros [|c s]; try reflexivity. apply IH. Qed.

Lemma HasSuffix_empty (s : string) : strings.HasSuffix s EmptyString = true.
Proof.
  unfold strings.HasSuffix. cbn [String.length Nat.leb andb].
  now rewrite substring_zero, bool_decide_true.
Qed.

(** X9. [HasFileWithPrefixExceptExt] expands one pattern, the prefix under the
    directory, and does nothing else.  It finds a file exactly when the
    expansion succeeds and one of its paths lacks the suffix; it returns an
    error exactly when the expansion fails, and then [false].  With an empty
    suffix it never finds a file. *)
Theorem HasFileWithPrefixExceptExt_result world dir pre ext s :
  (HasFileWithPrefixExceptExt world dir pre ext s).2
  = {| writer := writer s;
       events := events s ++ [EvGlob (filepath.Join [dir; pre])] |}
  /\ ((HasFileWithPrefixExceptExt world dir pre ext s).1.1 = true
      <-> exists files,
            Glob world (filepath.Join [dir; pre]) = Ok files
            /\ exists f, f ∈ files /\ strings.HasSuffix f ext = false)
  /\ ((HasFileWithPrefixExceptExt world dir pre ext s).1.2 <> None
      <-> exists e, Glob world (filepath.Join [dir; pre]) = Err e)
  /\ (ext = EmptyString ->
      (HasFileWithPrefixExceptExt world dir pre ext s).1.1 = false).
Proof.
  unfold HasFileWithPrefixExceptExt, filepath_Glob, bind, emit, ret.
  cbn [writer events].
  destruct (Glob world (filepath.Join [dir; pre])) as [files|e];
    cbn [fst snd].
  - split; [reflexivity|]. split; [|split].
    + rewrite rangeFiles_true. split; [intros Hex; eauto|].
      now intros (files' & [= <-] & Hex).
    + split; [done|]. now intros (e & [=]).
    + intros ->. apply not_true_iff_false. rewrite rangeFiles_true.
      intros (f & _ & Hf). now rewrite HasSuffix_empty in Hf.
  - split; [reflexivity|]. split; [|split].
    + split; [discriminate|]. now intros (files & [=] & _).
    + split; [eauto | discriminate].
    + reflexivity.
Qed.

(** X10. [openPath] starts one command, with the path as its only argument,
    unchanged: [explorer] on windows, [open] on darwin, [xdg-open] on every
    other host.  It returns the error of the start and leaves the response
    alone. *)
Theorem openPath_command world path s :
  exists program,
    openPath world path s
    = (Start world (Command program [path]),
       {| writer := writer s;
          events := events s ++ [EvStart (Command program [path])] |})
    /\ Args (Command program [path]) = [program; path]
    /\ (program = "explorer" <-> GOOS world = "windows")
    /\ (program = "open" <-> GOOS world = "darwin")
    /\ (program = "xdg-open"
        <-> GOOS world <> "windows" /\ GOOS world <> "darwin").
Proof.
  unfold openPath, cmd_Start, bind, emit, ret. cbn [writer events].
  repeat case_bool_decide; eexists; (split; [reflexivity|]);
    (split; [reflexivity|]); repeat split; try done; try congruence;
    try (intros [? ?]; congruence).
Qed.

Lemma HasPrefix_inv (s pre : string) :
  strings.HasPrefix s pre = true -> exists t, s = pre +:+ t.
Proof.
  unfold strings.HasPrefix. revert s.
  induction pre as [|c pre IH]; intros s H; [now exists s|].
  destruct s as [|x s]; [discriminate H|]. cbn [String.prefix] in H.
  destruct (ascii_dec c x) as [<-|]; [|discriminate H].
  destruct (IH s H) as [t ->]. now exists t.
Qed.

Lemma within_inv base path :
  within base path = true ->
  path = base \/ exists t, path = base +:+ t.
Proof.
  unfold within. intros [H|H]%orb_true_iff.
  - left. now apply bool_decide_eq_true in H.
  - right. apply HasPrefix_inv in H as [t ->].
    destruct (strings.HasSuffix base "/"); [eauto|].
    rewrite append_assoc. eauto.
Qed.

Lemma within_trans a b c :
  within a b = true -> within b c = true -> within a c = true.
Proof.
  intros Hab Hbc.
  destruct (within_inv _ _ Hbc) as [->|[t ->]]; [exact Hab|].
  unfold within in Hab |- *. apply orb_true_iff in Hab as [Hab|Hab].
  - apply bool_decide_eq_true in Hab. subst b. exact Hbc.
  - apply orb_true_iff. right. apply HasPrefix_inv in Hab as [u ->].
    unfold strings.HasPrefix. rewrite append_assoc. apply prefix_append.
Qed.

(** X12. On a clean absolute base a name that is not absolute and whose cleaned
    form does not begin with [..] resolves within the base. *)
Theorem resolved_within_base cfg query :
  filepath.IsAbs (basePath cfg) = true ->
  filepath.Clean (basePath cfg) = basePath cfg ->
  filepath.IsAbs (url.Get query "name") = false ->
  leadingDotDot (filepath.Clean (url.Get query "name")) = false ->
  within (basePath cfg) (resolved cfg query) = true.
Proof. intros. now apply Join_within. Qed.

Lemma resolved_within_base_witness :
  leadingDotDot
    (filepath.Clean (url.Get {[ "name" := ["site-a/../notes.md"] ]} "name"))
  = false
  /\ within (basePath demoCfg)
       (resolved demoCfg {[ "name" := ["site-a/../notes.md"] ]}) = true.
Proof.
  split; [vm_compute; reflexivity|].
  apply (resolved_within_base demoCfg {[ "name" := ["site-a/../notes.md"] ]});
    vm_compute; reflexivity.
Defined.

(** X13. A name that cleans to [.], the empty name among them, resolves to the
    base itself. *)
Theorem resolved_base_itself cfg query :
  filepath.IsAbs (basePath cfg) = true ->
  filepath.Clean (basePath cfg) = basePath cfg ->
  filepath.Clean (url.Get query "name") = "." ->
  resolved cfg query = basePath cfg.
Proof. intros. now apply Join_dot. Qed.

Lemma resolved_base_itself_witness :
  filepath.Clean (url.Get {[ "name" := ["site-a/.."] ]} "name") = "."
  /\ resolved demoCfg {[ "name" := ["site-a/.."] ]} = basePath demoCfg.
Proof.
  split; [vm_compute; reflexivity|].
  apply (resolved_base_itself demoCfg {[ "name" := ["site-a/.."] ]});
    vm_compute; reflexivity.
Defined.

(** X11. The guard gives the same verdict on the name as supplied and on the
    cleaned name, and cleaning the cleaned name changes nothing. *)
Theorem guard_same_on_cleaned_name name :
  filepath.IsAbs (filepath.Clean name) = filepath.IsAbs name
  /\ filepath.Clean (filepath.Clean name) = filepath.Clean name
  /\ filepath.Clean name <> EmptyString.
Proof.
  split; [apply IsAbs_Clean|]. split; [apply Clean_idempotent|].
  destruct (Clean_shape name) as [->|(out & dd & Hne & -> & _)]; [done|].
  destruct out; [done | discriminate].
Qed.

(** X17. Every path a served [/open] or [/test] hands to the host lies within
    the base [main] resolved, when the cleaned name does not begin with
    [..] and, for the pattern of [/test], the base name of the glob is not
    [..]. *)
Theorem served_requests_stay_within_base world proc addr cfg query :
  (forall wd, Getwd proc = Ok wd -> filepath.IsAbs wd = true) ->
  (main world proc).2 = ListenAndServe addr cfg ->
  leadingDotDot (filepath.Clean (url.Get query "name")) = false ->
  (forall e path,
      e ∈ (serve (handleOpen world cfg query)).2 ->
      eventPath e = Some path -> within (basePath cfg) path = true)
  /\ (filepath.Base (url.Get query "glob") <> ".." ->
      forall e path,
        e ∈ (serve (handleTest world cfg query)).2 ->
        eventPath e = Some path -> within (basePath cfg) path = true).
Proof.
  intros Hwd Hmain Hdots.
  destruct (main_serving world proc addr cfg Hwd Hmain)
    as (Hbase & Hclean & _).
  assert (Hin : accepted cfg query = true ->
                within (basePath cfg) (resolved cfg query) = true).
  { intros (_ & _ & Hrel)%accepted_true. now apply Join_within. }
  pose proof (fun H => globPattern_stays cfg query Hbase H) as Hpat.
  clear Hbase Hclean Hwd Hmain Hdots.
  split.
  - intros ev path.
    open_cases world cfg query; unfold guardPrints;
      rewrite ?elem_of_cons, ?elem_of_nil; intros Hev Hpath;
      repeat match goal with
        | H : _ \/ _ |- _ => destruct H
        | H : False |- _ => destruct H
        end; subst ev; try discriminate Hpath;
      try (injection Hpath as <-; now apply Hin).
    all: unfold revealCommand in Hpath; repeat case_bool_decide;
      injection Hpath as <-; now apply Hin.
  - intros Hglob ev path. specialize (Hpat Hglob).
    test_cases world cfg query; unfold guardPrints;
      rewrite ?elem_of_cons, ?elem_of_nil; intros Hev Hpath;
      repeat match goal with
        | H : _ \/ _ |- _ => destruct H
        | H : False |- _ => destruct H
        end; subst ev; try discriminate Hpath;
      injection Hpath as <-;
      first [now apply Hin | apply (within_trans _ _ _ (Hin Hacc) Hpat)].
Qed.

Lemma served_requests_stay_within_base_witness :
  EvStat "/home/u/Projects/site-a/docs"
    ∈ (serve (handleOpen demoWorld
                {| basePath := "/home/u/Projects/site-a"; port := "4455";
                   token := "secret" |}
                {[ "name" := ["docs"]; "token" := ["secret"] ]})).2
  /\ within "/home/u/Projects/site-a" "/home/u/Projects/site-a/docs" = true.
Proof.
  assert (Hin : EvStat "/home/u/Projects/site-a/docs"
    ∈ (serve (handleOpen demoWorld
                {| basePath := "/home/u/Projects/site-a"; port := "4455";
                   token := "secret" |}
                {[ "name" := ["docs"]; "token" := ["secret"] ]})).2).
  { vm_compute. apply list_elem_of_here. }
  split; [exact Hin|].
  refine (proj1 (served_requests_stay_within_base demoWorld demoProcess
                   "localhost:4455"
                   {| basePath := "/home/u/Projects/site-a"; port := "4455";
                      token := "secret" |}
                   {[ "name" := ["docs"]; "token" := ["secret"] ]} _ _ _)
            (EvStat "/home/u/Projects/site-a/docs")
            "/home/u/Projects/site-a/docs" Hin _).
  - intros wd [= <-]. reflexivity.
  - vm_compute. reflexivity.
  - vm_compute. reflexivity.
  - reflexivity.
Defined.

Lemma badge_colours_differ (label : string) :
  badge "red" label <> badge "green" label
  /\ badge "red" label <> badge "orange" label
  /\ badge "green" label <> badge "orange" label
  /\ (forall fill, badge fill label <> svgGreen)
  /\ (forall fill, badge fill label <> "Bad Glob" +:+ newline).
Proof.
  repeat split; try (intros H; vm_compute in H; discriminate H);
    intros fill H; vm_compute in H; discriminate H.
Qed.

(** X4. For an accepted request the body of [/test] tells what was found: red
    when the stat fails; the fixed green badge when the path exists and the
    glob is empty; labelled green when the expansion holds a path that does
    not end in [.txt]; labelled orange when it holds none. *)
Theorem test_badge_meaning world cfg query :
  accepted cfg query = true ->
  (http.Body (serve (handleTest world cfg query)).1
     = badge "red" (url.Get query "glob")
   <-> exists e, Stat world (resolved cfg query) = Err e)
  /\ (http.Body (serve (handleTest world cfg query)).1 = svgGreen
      <-> (exists info, Stat world (resolved cfg query) = Ok info)
          /\ url.Get query "glob" = EmptyString)
  /\ (http.Body (serve (handleTest world cfg query)).1
        = badge "green" (url.Get query "glob")
      <-> (exists info, Stat world (resolved cfg query) = Ok info)
          /\ url.Get query "glob" <> EmptyString
          /\ exists files,
               Glob world (globPattern cfg query) = Ok files
               /\ exists f, f ∈ files /\ strings.HasSuffix f ".txt" = false)
  /\ (http.Body (serve (handleTest world cfg query)).1
        = badge "orange" (url.Get query "glob")
      <-> (exists info, Stat world (resolved cfg query) = Ok info)
          /\ url.Get query "glob" <> EmptyString
          /\ exists files,
               Glob world (globPattern cfg query) = Ok files
               /\ forall f, f ∈ files -> strings.HasSuffix f ".txt" = true).
Proof.
  intros Hok.
  destruct (badge_colours_differ (url.Get query "glob"))
    as (Hrg & Hro & Hgo & Hfixed & Hbad).
  test_cases world cfg query; try congruence; cbn [http.Body]; clear Hrun.
  - (* stat error *)
    split; [split; eauto|]. split; [|split].
    + split; [intros H; now apply Hfixed in H|].
      intros [[info Hs'] _]. congruence.
    + split; [intros H; now apply Hrg in H|].
      intros [[info Hs'] _]. congruence.
    + split; [intros H; now apply Hro in H|].
      intros [[info Hs'] _]. congruence.
  - (* no glob *)
    split; [|split; [|split]].
    + split; [intros H; symmetry in H; now apply Hfixed in H|].
      intros [e' Hs']. congruence.
    + split; eauto.
    + split; [intros H; symmetry in H; now apply Hfixed in H|].
      intros (_ & Hg' & _). congruence.
    + split; [intros H; symmetry in H; now apply Hfixed in H|].
      intros (_ & Hg' & _). congruence.
  - (* bad glob *)
    split; [|split; [|split]].
    + split; [intros H; symmetry in H; now apply Hbad in H|].
      intros [e' Hs']. congruence.
    + split; [intros H; vm_compute in H; discriminate H|].
      intros [_ Hg']. congruence.
    + split; [intros H; symmetry in H; now apply Hbad in H|].
      intros (_ & _ & files & Hp' & _). congruence.
    + split; [intros H; symmetry in H; now apply Hbad in H|].
      intros (_ & _ & files & Hp' & _). congruence.
  - (* badge *)
    destruct (rangeFiles files ".txt") eqn:Hr.
    + pose proof (proj1 (rangeFiles_true files ".txt") Hr) as Hex.
      split; [|split; [|split]].
      * split; [intros H; symmetry in H; now apply Hrg in H|].
        intros [e' Hs']. congruence.
      * split; [intros H; now apply Hfixed in H|].
        intros [_ Hg']. congruence.
      * split; [intros _; eauto 8|reflexivity].
      * split; [intros H; now apply Hgo in H|].
        intros (_ & _ & files' & Hp' & Hall).
        assert (files' = files) as -> by congruence.
        apply rangeFiles_false in Hall. congruence.
    + pose proof (proj1 (rangeFiles_false files ".txt") Hr) as Hall.
      split; [|split; [|split]].
      * split; [intros H; symmetry in H; now apply Hro in H|].
        intros [e' Hs']. congruence.
      * split; [intros H; now apply Hfixed in H|].
        intros [_ Hg']. congruence.
      * split; [intros H; symmetry in H; now apply Hgo in H|].
        intros (_ & _ & files' & Hp' & Hex).
        assert (files' = files) as -> by congruence.
        apply rangeFiles_true in Hex. congruence.
      * split; [intros _; eauto 8|reflexivity].
Qed.

Lemma test_badge_meaning_witness :
  accepted demoCfg
    {[ "name" := ["site-a"]; "token" := ["secret"]; "glob" := ["r*"] ]}
  = true
  /\ http.Body
       (serve (handleTest demoWorld demoCfg
                 {[ "name" := ["site-a"]; "token" := ["secret"];
                    "glob" := ["r*"] ]})).1
     = badge "orange" "r*".
Proof.
  split; [vm_compute; reflexivity|].
  refine (proj2 (proj2 (proj2 (proj2
            (test_badge_meaning demoWorld demoCfg
               {[ "name" := ["site-a"]; "token" := ["secret"];
                  "glob" := ["r*"] ]} _)))) _).
  - vm_compute. reflexivity.
  - split; [exists directory; vm_compute; reflexivity|].
    split; [vm_compute; discriminate|].
    exists ["/home/u/Projects/site-a/readme.txt"].
    split; [vm_compute; reflexivity|].
    intros f Hf. apply list_elem_of_singleton in Hf. subst f.
    vm_compute. reflexivity.
Defined.
